(** * A Transformer encoder notebook, embedded in Rocq

    The development follows the classes of sections 1 to 6 of
    [Transformer-checkpoint.ipynb], statement by statement.
    Python exceptions are an error monad, instances of the notebook's
    classes are attribute dictionaries ([gmap string value]), the module
    globals are a dictionary of names, and torch tensors are strided
    views on a flat storage.  Floating-point numbers are kept abstract
    behind the [Scalar] interface, so every statement holds for whatever
    arithmetic the tensor library implements; the real numbers supply one
    instance. *)

From stdpp Require Import base gmap strings list.
From Stdlib Require Import ZArith QArith Reals Lra Lia.

#[local] Set Warnings "-register-all".
#[local] Open Scope Z_scope.
#[local] Open Scope nat_scope.

(** ** Python exceptions and the error monad *)

Inductive exn :=
| AttributeError (name : string)
| NameError (name : string)
| TypeError (msg : string)
| AssertionError (msg : string)
| ValueError (msg : string)
| OverflowError (msg : string)
| RuntimeError (msg : string)
| IndexError
| ZeroDivisionError.

Inductive result (X : Type) :=
| Ok (x : X)
| Err (e : exn).

Arguments Ok {X} x.
Arguments Err {X} e.

#[global] Instance result_ret : MRet result := λ X x, Ok x.
#[global] Instance result_bind : MBind result :=
  λ X Y f m, match m with Ok x => f x | Err e => Err e end.
#[global] Instance result_fmap : FMap result :=
  λ X Y f m, match m with Ok x => Ok (f x) | Err e => Err e end.

Definition is_Ok {X} (r : result X) : Prop := ∃ x, r = Ok x.
Definition is_Err {X} (r : result X) : Prop := ∃ e, r = Err e.

Fixpoint mapM_result {X Y} (f : X → result Y) (l : list X) : result (list Y) :=
  match l with
  | [] => Ok []
  | x :: l' => y ← f x; ys ← mapM_result f l'; Ok (y :: ys)
  end.

(** ** Floating-point scalars

    The operations of the float type the tensors hold.  [of_Q] reads a
    literal or converts an integer. *)

Class Scalar (A : Type) := {
  of_Q : Q → A;
  fadd : A → A → A;
  fsub : A → A → A;
  fmul : A → A → A;
  fdiv : A → A → A;
  fmax : A → A → A;
  fsqrt : A → A;
  fexp : A → A;
  flog : A → A;
  fsin : A → A;
  fcos : A → A;
  feqb : A → A → bool;
  fltb : A → A → bool
}.

Definition fzero `{Scalar A} : A := of_Q 0.
Definition fone `{Scalar A} : A := of_Q 1.
Definition of_Z `{Scalar A} (z : Z) : A := of_Q (inject_Z z).
Definition of_nat `{Scalar A} (n : nat) : A := of_Z (Z.of_nat n).

(** The real numbers as scalars: floats with the rounding idealised away. *)

Definition Reqb (x y : R) : bool := if Req_dec_T x y then true else false.
Definition Rltb (x y : R) : bool := if Rlt_dec x y then true else false.

#[global] Instance R_Scalar : Scalar R := {|
  of_Q := Q2R;
  fadd := Rplus;
  fsub := Rminus;
  fmul := Rmult;
  fdiv := Rdiv;
  fmax := Rmax;
  fsqrt := sqrt;
  fexp := exp;
  flog := ln;
  fsin := sin;
  fcos := cos;
  feqb := Reqb;
  fltb := Rltb
|}.

(** ** Tensors

    A tensor is a view (shape, strides, offset) on a flat storage, as in
    torch.  [tget] reads one element; indices are lists of naturals. *)

Record tensor (X : Type) := mkTensor {
  shape : list nat;
  strides : list nat;
  offset : nat;
  storage : list X
}.

Arguments mkTensor {X} shape strides offset storage.
Arguments shape {X} t.
Arguments strides {X} t.
Arguments offset {X} t.
Arguments storage {X} t.

Definition numel (s : list nat) : nat := foldr Nat.mul 1 s.

(** torch gives a dimension the stride of the next one times its size,
    a size 0 counting as 1. *)
Definition numel1 (s : list nat) : nat := foldr (λ d acc, Nat.max d 1 * acc) 1 s.

Fixpoint contiguous_strides (s : list nat) : list nat :=
  match s with
  | [] => []
  | _ :: r => numel1 r :: contiguous_strides r
  end.

Fixpoint flat_index (st idx : list nat) : nat :=
  match st, idx with
  | s :: st', i :: idx' => i * s + flat_index st' idx'
  | _, _ => 0
  end.

Fixpoint indices (s : list nat) : list (list nat) :=
  match s with
  | [] => [[]]
  | d :: r => mjoin ((λ i, (i ::.) <$> indices r) <$> seq 0 d)
  end.

Definition in_range (s idx : list nat) : Prop := Forall2 lt idx s.

Definition ndim {X} (t : tensor X) : nat := length (shape t).

Definition tget {X} (d : X) (t : tensor X) (idx : list nat) : X :=
  nth (offset t + flat_index (strides t) idx) (storage t) d.

(** A fresh row-major tensor holding [f idx] at every index. *)
Definition of_fun {X} (s : list nat) (f : list nat → X) : tensor X :=
  mkTensor s (contiguous_strides s) 0 (f <$> indices s).

(** A tensor laid out row-major, as every freshly allocated one is. *)
Definition row_major {X} (t : tensor X) : Prop :=
  strides t = contiguous_strides (shape t).

(** torch's contiguity test: empty tensors pass, dimensions of size 1 are
    skipped, every other stride is the number of elements after it. *)
Fixpoint contig_aux (s st : list nat) : bool :=
  match s, st with
  | [], [] => true
  | d :: s', x :: st' => ((d =? 1) || (x =? numel s')) && contig_aux s' st'
  | _, _ => false
  end.

Definition is_contiguous {X} (t : tensor X) : bool :=
  (numel (shape t) =? 0) || contig_aux (shape t) (strides t).

Definition contiguous {X} (d : X) (t : tensor X) : tensor X :=
  if is_contiguous t then t else of_fun (shape t) (tget d t).

(** Dimension arguments wrap around when negative; a 0-dimensional tensor
    accepts -1 and 0. *)
Definition wrap_dim (n : nat) (d : Z) : result nat :=
  let n' := Z.of_nat (Nat.max n 1) in
  if bool_decide (- n' ≤ d < n')%Z
  then Ok (Z.to_nat (if bool_decide (d < 0)%Z then d + n' else d)%Z)
  else Err IndexError.

Definition list_swap (i j : nat) (l : list nat) : list nat :=
  match l !! i, l !! j with
  | Some a, Some b => <[i:=b]> (<[j:=a]> l)
  | _, _ => l
  end.

Definition transpose {X} (d0 d1 : Z) (t : tensor X) : result (tensor X) :=
  i ← wrap_dim (ndim t) d0;
  j ← wrap_dim (ndim t) d1;
  Ok (mkTensor (list_swap i j (shape t)) (list_swap i j (strides t))
        (offset t) (storage t)).

(** [x.shape[i]] on the shape tuple. *)
Definition shape_at {X} (t : tensor X) (i : Z) : result Z :=
  let n := Z.of_nat (ndim t) in
  if bool_decide (- n ≤ i < n)%Z
  then match shape t !! Z.to_nat (if bool_decide (i < 0)%Z then i + n else i)%Z with
       | Some d => Ok (Z.of_nat d)
       | None => Err IndexError
       end
  else Err IndexError.

(** The sizes handed to [view]: one entry may be -1 and is then inferred
    from the number of elements (torch's infer_size). *)
Definition infer_size (args : list Z) (n : nat) : result (list nat) :=
  if bool_decide (Exists (λ a, a < -1)%Z args)
  then Err (RuntimeError "invalid shape dimension")
  else
    let known := numel (Z.to_nat <$> filter (λ a, 0 ≤ a)%Z args) in
    match length (filter (λ a, a = -1)%Z args) with
    | 0 => if n =? known then Ok (Z.to_nat <$> args)
           else Err (RuntimeError "shape is invalid for input size")
    | 1 => if known =? 0
           then Err (RuntimeError
                  (if n =? 0 then "the unspecified dimension size -1 can be any value and is ambiguous"
                   else "shape is invalid for input size"))
           else if n mod known =? 0
           then Ok ((λ a, if bool_decide (a = -1)%Z then n / known else Z.to_nat a) <$> args)
           else Err (RuntimeError "shape is invalid for input size")
    | _ => Err (RuntimeError "only one dimension can be inferred")
    end.

(** [view] reinterprets the storage under a new shape.  The model covers
    contiguous receivers, where torch always succeeds, and refuses every
    other receiver; torch also accepts a non-contiguous receiver whose
    strides happen to fit the new shape.  The notebook hands [view] sizes
    it can accept only on line 256, directly after [contiguous()]. *)
Definition view {X} (t : tensor X) (args : list Z) : result (tensor X) :=
  s ← infer_size args (numel (shape t));
  if is_contiguous t
  then Ok (mkTensor s (contiguous_strides s) (offset t) (storage t))
  else Err (RuntimeError "view size is not compatible with input tensor's size and stride").

(** [unsqueeze] inserts a dimension of size 1; its stride is the size times
    the stride of the dimension it is put before, 1 at the end. *)
Definition unsqueeze {X} (d : Z) (t : tensor X) : result (tensor X) :=
  let n := (Z.of_nat (ndim t) + 1)%Z in
  if bool_decide (- n ≤ d < n)%Z
  then let i := Z.to_nat (if bool_decide (d < 0)%Z then d + n else d)%Z in
       let st := match shape t !! i, strides t !! i with
                 | Some size, Some stride => size * stride
                 | _, _ => 1
                 end in
       Ok (mkTensor (take i (shape t) ++ 1 :: drop i (shape t))
             (take i (strides t) ++ st :: drop i (strides t))
             (offset t) (storage t))
  else Err IndexError.

(** *** Broadcasting *)

Fixpoint bshape_rev (a b : list nat) : result (list nat) :=
  match a, b with
  | [], _ => Ok b
  | _, [] => Ok a
  | x :: a', y :: b' =>
      r ← bshape_rev a' b';
      if x =? y then Ok (x :: r)
      else if x =? 1 then Ok (y :: r)
      else if y =? 1 then Ok (x :: r)
      else Err (RuntimeError "shapes cannot be broadcast")
  end.

Definition broadcast_shapes (a b : list nat) : result (list nat) :=
  reverse <$> bshape_rev (reverse a) (reverse b).

(** The index an operand of shape [s] is read at, for index [idx] of the
    broadcast result: its own trailing dimensions, 0 where its size is 1. *)
Definition bidx (s idx : list nat) : list nat :=
  zip_with (λ d i, if d =? 1 then 0 else i) s (drop (length idx - length s) idx).

Definition tmap {X Y} (d : X) (f : X → Y) (t : tensor X) : tensor Y :=
  of_fun (shape t) (λ idx, f (tget d t idx)).

Definition tmap2 {X Y W} (dx : X) (dy : Y) (f : X → Y → W)
    (a : tensor X) (b : tensor Y) : result (tensor W) :=
  s ← broadcast_shapes (shape a) (shape b);
  Ok (of_fun s (λ idx, f (tget dx a (bidx (shape a) idx)) (tget dy b (bidx (shape b) idx)))).

(** The innermost vector of [t] under the index prefix [pre]. *)
Definition row {X} (d : X) (t : tensor X) (pre : list nat) : list X :=
  match shape t with
  | [] => [tget d t []]
  | _ => (λ j, tget d t (pre ++ [j])) <$> seq 0 (List.last (shape t) 0)
  end.

(** Reduction over the last dimension with keepdim=True. *)
Definition reduce_last {X Y} (d : X) (f : list X → Y) (t : tensor X) : tensor Y :=
  match shape t with
  | [] => of_fun [] (λ _, f (row d t []))
  | _ => of_fun (removelast (shape t) ++ [1]) (λ idx, f (row d t (removelast idx)))
  end.

Definition expandable (s target : list nat) : bool :=
  bool_decide (length s ≤ length target) &&
  forallb (λ p, (p.1 =? p.2) || (p.1 =? 1))
    (zip (reverse s) (reverse target)).

Section Torch.
Context `{Scalar A}.

Definition get (t : tensor A) (idx : list nat) : A := tget fzero t idx.

(** *** Elementwise arithmetic *)

Definition tadd : tensor A → tensor A → result (tensor A) := tmap2 fzero fzero fadd.
Definition tsub : tensor A → tensor A → result (tensor A) := tmap2 fzero fzero fsub.
Definition tmul : tensor A → tensor A → result (tensor A) := tmap2 fzero fzero fmul.
Definition tdiv : tensor A → tensor A → result (tensor A) := tmap2 fzero fzero fdiv.

Definition relu (t : tensor A) : tensor A := tmap fzero (fmax fzero) t.

(** *** Reductions: [mean] and [std] over the last dimension *)

(** Sums run left to right; the order torch adds in is its own affair and
    no statement below depends on it. *)
Definition fsum (l : list A) : A := foldl fadd fzero l.

Definition avg (l : list A) : A := fdiv (fsum l) (of_nat (length l)).

(** torch's [std] is the corrected sample deviation: the squared
    deviations are divided by max(0, N - 1). *)
Definition sample_std (l : list A) : A :=
  let m := avg l in
  fsqrt (fdiv (fsum ((λ a, fmul (fsub a m) (fsub a m)) <$> l))
              (of_nat (length l - 1))).

Definition mean_keepdim (t : tensor A) : tensor A := reduce_last fzero avg t.
Definition std_keepdim (t : tensor A) : tensor A := reduce_last fzero sample_std t.

(** *** Factories *)

Definition full (sizes : list Z) (a : A) : result (tensor A) :=
  if bool_decide (Exists (λ z, z < 0)%Z sizes)
  then Err (RuntimeError "Trying to create tensor with negative dimension")
  else Ok (of_fun (Z.to_nat <$> sizes) (λ _, a)).

Definition zeros (sizes : list Z) : result (tensor A) := full sizes fzero.
Definition ones (sizes : list Z) : result (tensor A) := full sizes fone.

(** [torch.arange(0, stop, step)] with a positive step, as floats. *)
Definition arange (stop step : Z) : result (tensor A) :=
  if bool_decide (stop < 0)%Z
  then Err (RuntimeError "upper bound and larger bound inconsistent with step sign")
  else Ok (of_fun [Z.to_nat ((stop + step - 1) / step)]
             (λ idx, of_Z (Z.of_nat (hd 0 idx) * step))).

(** *** Indexing *)

(** [t[:, start::step] = v] on a 2-dimensional [t]; [v] is expanded to
    the shape of the selected columns. *)
Definition setitem_cols (t : tensor A) (start step : nat) (v : tensor A)
    : result (tensor A) :=
  match shape t with
  | [rows; cols] =>
      let ncols := (cols - start + step - 1) / step in
      if expandable (shape v) [rows; ncols]
      then Ok (of_fun (shape t) (λ idx,
             match idx with
             | [r; c] =>
                 if (start <=? c) && ((c - start) mod step =? 0)
                 then get v (bidx (shape v) [r; (c - start) / step])
                 else get t idx
             | _ => get t idx
             end))
      else Err (RuntimeError "The expanded size of the tensor must match the existing size")
  | _ => Err IndexError
  end.

(** [t[:, :n, :]] on a 3-dimensional [t]: a slice stops at the end of the
    dimension when [n] runs past it. *)
Definition slice_dim1 (t : tensor A) (n : Z) : result (tensor A) :=
  match shape t with
  | [a; b; c] =>
      let n' := (if bool_decide (n < 0)%Z then Z.of_nat b + n else n)%Z in
      Ok (mkTensor [a; Nat.min (Z.to_nat n') b; c] (strides t) (offset t) (storage t))
  | _ => Err IndexError
  end.

(** *** Masking and softmax *)

Definition eq_scalar (t : tensor A) (a : A) : tensor bool :=
  tmap fzero (λ x, feqb x a) t.

(** In-place fill: the receiver keeps its shape, the mask is expanded. *)
Definition masked_fill_ (t : tensor A) (m : tensor bool) (a : A) : result (tensor A) :=
  if expandable (shape m) (shape t)
  then Ok (of_fun (shape t) (λ idx,
         if tget false m (bidx (shape m) idx) then a else get t idx))
  else Err (RuntimeError "output shape does not match the broadcast shape").

Definition fmaximum (l : list A) : A :=
  match l with
  | [] => fzero
  | a :: r => foldl fmax a r
  end.

(** Softmax over the last dimension, shifted by the row maximum. *)
Definition softmax (t : tensor A) : tensor A :=
  of_fun (shape t) (λ idx,
    let v := row fzero t (removelast idx) in
    let m := fmaximum v in
    fdiv (fexp (fsub (get t idx) m)) (fsum ((λ a, fexp (fsub a m)) <$> v))).

(** *** Matrix product

    torch.matmul: 1-dimensional operands are promoted to matrices and
    the added dimension is dropped again; leading dimensions broadcast. *)
Definition reshape_fresh (s : list nat) (t : tensor A) : tensor A :=
  mkTensor s (contiguous_strides s) (offset t) (storage t).

Definition matmul (a b : tensor A) : result (tensor A) :=
  match shape a, shape b with
  | [], _ | _, [] => Err (RuntimeError "both arguments to matmul need to be at least 1D")
  | sa, sb =>
      let sa2 := if length sa =? 1 then 1 :: sa else sa in
      let sb2 := if length sb =? 1 then sb ++ [1] else sb in
      let ba := take (length sa2 - 2) sa2 in
      let bb := take (length sb2 - 2) sb2 in
      let n := nth (length sa2 - 2) sa2 0 in
      let m := nth (length sa2 - 1) sa2 0 in
      let m' := nth (length sb2 - 2) sb2 0 in
      let p := nth (length sb2 - 1) sb2 0 in
      if m =? m' then
        bs ← broadcast_shapes ba bb;
        let ia (pre : list nat) (i k : nat) :=
          if length sa =? 1 then [k] else bidx ba pre ++ [i; k] in
        let ib (pre : list nat) (k j : nat) :=
          if length sb =? 1 then [k] else bidx bb pre ++ [k; j] in
        let r := of_fun (bs ++ [n; p]) (λ idx,
          let pre := take (length bs) idx in
          let i := nth (length bs) idx 0 in
          let j := nth (S (length bs)) idx 0 in
          fsum ((λ k, fmul (get a (ia pre i k)) (get b (ib pre k j))) <$> seq 0 m)) in
        Ok (reshape_fresh
              (bs ++ (if length sa =? 1 then [] else [n])
                  ++ (if length sb =? 1 then [] else [p])) r)
      else Err (RuntimeError "mat1 and mat2 shapes cannot be multiplied")
  end.

(** *** Library modules: nn.Linear and nn.Dropout *)

(** [F.linear]: x·Wᵀ + b, the weight being stored as (out, in). *)
Definition linear_forward (weight bias x : tensor A) : result (tensor A) :=
  wt ← transpose 0 1 weight;
  y ← matmul x wt;
  tadd y bias.

(** Dropout as the CPU kernel computes it: the input itself when p is 0,
    in evaluation mode or on an empty tensor; otherwise the kept
    elements ([keep], drawn by the generator) scaled by 1/(1-p). *)
Definition dropout_forward (keep : list nat → bool) (p : A) (training : bool)
    (x : tensor A) : tensor A :=
  if feqb p fzero || negb training || (numel (shape x) =? 0) then x
  else if feqb p fone then tmap fzero (λ a, fmul a fzero) x
  else of_fun (shape x) (λ idx,
         fmul (get x idx) (fdiv (if keep idx then fone else fzero) (fsub fone p))).

(** ** Python values, objects and names *)

Inductive value :=
| VNone
| VInt (z : Z)
| VFloat (a : A)
| VTensor (t : tensor A)
| VLinear (weight bias : tensor A)
| VDropout (p : A) (training : bool)
| VObj (cls : string) (attrs : gmap string value)
| VGlobal (name : string).

(** [self.name]: the attribute dictionary of an instance. *)
Definition getattr (self : gmap string value) (name : string) : result value :=
  match self !! name with
  | Some v => Ok v
  | None => Err (AttributeError name)
  end.

(** A name that is neither a parameter nor a local is read from the
    module globals. *)
Definition lookup_name (G : gmap string value) (name : string) : result value :=
  match G !! name with
  | Some v => Ok v
  | None => Err (NameError name)
  end.

(** What the notebook binds at top level: three imports and six classes. *)
Definition notebook_globals : gmap string value :=
  list_to_map ((λ n, (n, VGlobal n)) <$>
    ["torch"; "nn"; "math"; "InputEmbeddings"; "PositionalEncoding";
     "LayerNormalization"; "FeedForwardBlock"; "MultiHeadAttentionBlock";
     "ResidualConnection"]).

Definition as_tensor (attr : string) (v : value) : result (tensor A) :=
  match v with
  | VTensor t => Ok t
  | _ => Err (AttributeError attr)
  end.

(** An operand of [@]: anything but a tensor is a TypeError. *)
Definition as_operand (v : value) : result (tensor A) :=
  match v with
  | VTensor t => Ok t
  | _ => Err (TypeError "unsupported operand type(s) for @")
  end.

Definition as_int (v : value) : result Z :=
  match v with
  | VInt z => Ok z
  | _ => Err (TypeError "an integer is required")
  end.

Definition as_float (v : value) : result A :=
  match v with
  | VFloat a => Ok a
  | VInt z => Ok (of_Z z)
  | _ => Err (TypeError "unsupported operand type")
  end.

(** [t.view] applied to sizes given as Python values. *)
Definition view_v (t : tensor A) (sizes : list value) : result (tensor A) :=
  sz ← mapM_result as_int sizes;
  view t sz.

(** The positional methods of torch.Tensor the notebook calls; any other
    attribute name is an AttributeError. *)
Definition tensor_method (name : string)
    : result (tensor A → list value → result (tensor A)) :=
  if String.eqb name "unsqueeze" then
    Ok (λ t args, match args with
                  | [VInt d] => unsqueeze d t
                  | _ => Err (TypeError "unsqueeze()")
                  end)
  else if String.eqb name "view" then Ok view_v
  else if String.eqb name "transpose" then
    Ok (λ t args, match args with
                  | [VInt a; VInt b] => transpose a b t
                  | _ => Err (TypeError "transpose()")
                  end)
  else if String.eqb name "contiguous" then
    Ok (λ t args, match args with
                  | [] => Ok (contiguous fzero t)
                  | _ => Err (TypeError "contiguous()")
                  end)
  else if String.eqb name "float" then
    Ok (λ t args, match args with
                  | [] => Ok t
                  | _ => Err (TypeError "float()")
                  end)
  else Err (AttributeError name).

Definition py_mod (a b : Z) : result Z :=
  if bool_decide (b = 0)%Z then Err ZeroDivisionError else Ok (a mod b)%Z.

Definition py_floordiv (a b : Z) : result Z :=
  if bool_decide (b = 0)%Z then Err ZeroDivisionError else Ok (a / b)%Z.

Definition py_assert (c : bool) (msg : string) : result unit :=
  if c then Ok () else Err (AssertionError msg).

(** [nn.Linear(in_features, out_features)]; the initial weights come
    from the initialiser [init]. *)
Definition nn_Linear (init : list nat → list nat → A) (in_features out_features : Z)
    : result value :=
  if bool_decide (in_features < 0 ∨ out_features < 0)%Z
  then Err (RuntimeError "Trying to create tensor with negative dimension")
  else
    let sw := [Z.to_nat out_features; Z.to_nat in_features] in
    let sb := [Z.to_nat out_features] in
    Ok (VLinear (of_fun sw (init sw)) (of_fun sb (init sb))).

(** [nn.Dropout(p)]: a rate outside [0, 1] is refused; a new module is
    in training mode. *)
Definition nn_Dropout (p : A) : result value :=
  if fltb p fzero || fltb fone p
  then Err (ValueError "dropout probability has to be between 0 and 1")
  else Ok (VDropout p true).
End Torch.

Arguments value A : clear implicits.
Arguments VNone {A}.
Arguments VInt {A} z.
Arguments VFloat {A} a.
Arguments VTensor {A} t.
Arguments VLinear {A} weight bias.
Arguments VDropout {A} p training.
Arguments VObj {A} cls attrs.
Arguments VGlobal {A} name.

(** ** The notebook's classes *)

Section Notebook.
Context `{Scalar A}.

(** Calling a module stored in an attribute runs its forward method;
    calling anything else is a TypeError.  Of the notebook's classes
    only LayerNormalization is ever stored in an attribute; its forward
    is passed in as [ln_forward]. *)
Definition call_module
    (ln_forward : gmap string (value A) → tensor A → result (tensor A))
    (keep : list nat → bool) (f : value A) (x : tensor A) : result (tensor A) :=
  match f with
  | VLinear weight bias => linear_forward weight bias x
  | VDropout p training => Ok (dropout_forward keep p training x)
  | VObj cls attrs =>
      if String.eqb cls "LayerNormalization" then ln_forward attrs x
      else Err (TypeError "forward() missing required positional arguments")
  | VFloat _ => Err (TypeError "'float' object is not callable")
  | VInt _ => Err (TypeError "'int' object is not callable")
  | VNone => Err (TypeError "'NoneType' object is not callable")
  | VTensor _ => Err (TypeError "'Tensor' object is not callable")
  | VGlobal _ => Err (TypeError "missing required positional arguments")
  end.

(** *** Section 2: PositionalEncoding *)

(** Lines 83-91 of the constructor: the local [pe] after the sine and
    cosine columns have been written. *)
Definition PositionalEncoding_table (d_model seq_len : Z) : result (tensor A) :=
  pe ← zeros [seq_len; d_model];
  position ← arange seq_len 1 ≫= unsqueeze 1;
  ar ← arange d_model 2;
  c ← (if bool_decide (d_model = 0)%Z then Err ZeroDivisionError
       else Ok (fdiv (flog (of_Q 10000)) (of_Z d_model)));
  let div_term := tmap fzero fexp (tmap fzero (λ a, fmul a c) ar) in
  a ← tmul position div_term;
  pe ← setitem_cols pe 0 2 (tmap fzero fsin a);
  a ← tmul position div_term;
  pe ← setitem_cols pe 1 2 (tmap fzero fcos a);
  Ok pe.

(** The angle lines 87-91 feed to sin and cos for position [pos] and
    column pair [i]: [position * div_term], the position times
    exp(2i * (ln 10000 / d_model)). *)
Definition pe_angle (d_model : Z) (pos i : nat) : A :=
  fmul (of_Z (Z.of_nat pos * 1))
       (fexp (fmul (of_Z (Z.of_nat i * 2)) (fdiv (flog (of_Q 10000)) (of_Z d_model)))).

Definition PositionalEncoding_init (d_model seq_len : Z) (dropout : A)
    : result (gmap string (value A)) :=
  let self : gmap string (value A) := <["d_model" := VInt d_model]> ∅ in
  let self := <["seq_len" := VInt seq_len]> self in
  let self := <["dropout" := VFloat dropout]> self in
  pe ← PositionalEncoding_table d_model seq_len;
  unsqueece ← tensor_method "unsqueece";
  pe ← unsqueece pe [VInt 0];
  Ok (<["pe" := VTensor pe]> self).

(** *** Section 3: LayerNormalization *)

(** The default [eps = 10**-6]. *)
Definition LayerNormalization_eps : A := of_Q (1 # 1000000).

Definition LayerNormalization_init (eps : A) : result (gmap string (value A)) :=
  let self : gmap string (value A) := <["eps" := VFloat eps]> ∅ in
  alpha ← ones [1%Z];
  let self := <["alpha" := VTensor alpha]> self in
  bias ← zeros [1%Z];
  let self := <["bias" := VTensor bias]> self in
  Ok self.

Definition LayerNormalization_forward (self : gmap string (value A)) (x : tensor A)
    : result (tensor A) :=
  let mean := mean_keepdim x in
  let std := std_keepdim x in
  alpha ← getattr self "alpha" ≫= as_tensor "alpha";
  centred ← tsub x mean;
  num ← tmul alpha centred;
  eps ← getattr self "eps" ≫= as_float;
  let den := tmap fzero (λ s, fadd s eps) std in
  quot ← tdiv num den;
  bias ← getattr self "bias" ≫= as_tensor "bias";
  tadd quot bias.

Definition call (keep : list nat → bool) (f : value A) (x : tensor A)
    : result (tensor A) :=
  call_module LayerNormalization_forward keep f x.

(** [requires_grad_(False)] only clears a flag of the autograd engine and
    leaves the slice as it is. *)
Definition PositionalEncoding_forward (keep : list nat → bool)
    (self : gmap string (value A)) (x : tensor A) : result (tensor A) :=
  pe ← getattr self "pe" ≫= as_tensor "pe";
  n ← shape_at x 1;
  sl ← slice_dim1 pe n;
  x ← tadd x sl;
  dropout ← getattr self "dropout";
  call keep dropout x.

(** *** Section 4: FeedForwardBlock *)

Definition FeedForwardBlock_init (init : string → list nat → list nat → A)
    (d_model d_ff : Z) (dropout : A) : result (gmap string (value A)) :=
  l1 ← nn_Linear (init "Linear_1") d_model d_ff;
  let self : gmap string (value A) := <["Linear_1" := l1]> ∅ in
  d ← nn_Dropout dropout;
  let self := <["dropout" := d]> self in
  l2 ← nn_Linear (init "Linear_2") d_ff d_model;
  let self := <["Linear_2" := l2]> self in
  Ok self.

Definition FeedForwardBlock_forward (keep : list nat → bool)
    (self : gmap string (value A)) (x : tensor A) : result (tensor A) :=
  linear_2 ← getattr self "linear_2";
  dropout ← getattr self "dropout";
  linear_1 ← getattr self "linear_1";
  a ← call keep linear_1 x;
  b ← call keep dropout (relu a);
  call keep linear_2 b.

(** *** Section 5: MultiHeadAttentionBlock *)

Definition MultiHeadAttentionBlock_init (init : string → list nat → list nat → A)
    (d_model h : Z) (dropout : A) : result (gmap string (value A)) :=
  let self : gmap string (value A) := <["d_model" := VInt d_model]> ∅ in
  let self := <["h" := VInt h]> self in
  r ← py_mod d_model h;
  _ ← py_assert (bool_decide (r = 0)%Z) "d_model is not divisible by h";
  d_k ← py_floordiv d_model h;
  let self := <["d_k" := VInt d_k]> self in
  w_q ← nn_Linear (init "w_q") d_model d_model;
  let self := <["w_q" := w_q]> self in
  w_k ← nn_Linear (init "w_k") d_model d_model;
  let self := <["w_k" := w_k]> self in
  w_v ← nn_Linear (init "w_v") d_model d_model;
  let self := <["w_v" := w_v]> self in
  w_o ← nn_Linear (init "w_o") d_model d_model;
  let self := <["w_o" := w_o]> self in
  d ← nn_Dropout dropout;
  let self := <["dropout" := d]> self in
  Ok self.

(** The static method takes four positional parameters; [mask] is not
    one of them and is read from the globals [G]. *)
Definition MultiHeadAttentionBlock_attention (G : gmap string (value A))
    (keep : list nat → bool) (args : list (value A))
    : result (tensor A * tensor A) :=
  match args with
  | [query; key; value; dropout] =>
      query ← as_tensor "shape" query;
      d_k ← shape_at query (-1);
      key ← as_tensor "transpose" key;
      kt ← transpose (-2) (-1) key;
      qk ← matmul query kt;
      let attention_scores := tmap fzero (λ a, fdiv a (fsqrt (of_Z d_k))) qk in
      mask ← lookup_name G "mask";
      attention_scores ←
        match mask with
        | VNone => Ok attention_scores
        | VTensor m =>
            masked_fill_ attention_scores (eq_scalar m fzero) (of_Q (-1000000000))
        | _ => Err (TypeError "masked_fill_(): argument 'mask' must be Tensor")
        end;
      let attention_scores := softmax attention_scores in
      attention_scores ←
        match dropout with
        | VNone => Ok attention_scores
        | _ => call keep dropout attention_scores
        end;
      value ← as_operand value;
      out ← matmul attention_scores value;
      Ok (out, attention_scores)
  | _ => Err (TypeError "attention() takes 4 positional arguments")
  end.

(** Line 256:
    [x.transpose(1, 2).contiguous().view(x.shape[0], -1, h * d_k)]. *)
Definition combine_heads (h d_k : Z) (x : tensor A) : result (tensor A) :=
  t ← transpose 1 2 x;
  let c := contiguous fzero t in
  s0 ← shape_at x 0;
  view c [s0; -1; h * d_k]%Z.

(** [forward] returns its result together with the instance, whose
    [attention_scores] attribute line 254 assigns. *)
Definition MultiHeadAttentionBlock_forward (G : gmap string (value A))
    (keep : list nat → bool) (self : gmap string (value A))
    (q k v : tensor A) (mask : value A)
    : result (tensor A) * gmap string (value A) :=
  let upto_254 : result (tensor A * tensor A) :=
    w_q ← getattr self "w_q";
    query ← call keep w_q q;
    w_k ← getattr self "w_k";
    key ← call keep w_k k;
    w_v ← getattr self "w_v";
    value ← call keep w_v v;
    (* line 249 *)
    s0 ← shape_at query 0;
    s1 ← shape_at query 1;
    h ← getattr self "h";
    d_k ← lookup_name G "d_k";
    query ← view_v query [VInt s0; VInt s1; h; VObj "MultiHeadAttentionBlock" self; d_k]
              ≫= transpose 1 2;
    (* line 252 *)
    s0 ← shape_at key 0;
    s1 ← shape_at key 1;
    h ← getattr self "h";
    d_k ← getattr self "d_k";
    key ← view_v query [VInt s0; VInt s1; h; d_k] ≫= transpose 1 2;
    (* line 253 *)
    s0 ← shape_at value 0;
    view_ ← lookup_name G "view" ≫= as_tensor "shape";
    s1 ← shape_at view_ 1;
    h ← getattr self "h";
    d_k ← getattr self "d_k";
    value ← view_v value [VInt s0; VInt s1; h; d_k] ≫= transpose 1 2;
    (* line 254 *)
    dropout ← getattr self "dropout";
    MultiHeadAttentionBlock_attention G keep
      [VTensor query; VTensor key; VTensor value; mask; dropout]
  in
  match upto_254 with
  | Err e => (Err e, self)
  | Ok (x, attention_scores) =>
      let self := <["attention_scores" := VTensor attention_scores]> self in
      (* line 256 *)
      let out : result (tensor A) :=
        h ← getattr self "h" ≫= as_int;
        d_k ← getattr self "d_k" ≫= as_int;
        x ← combine_heads h d_k x;
        w_o ← getattr self "w_o";
        call keep w_o x
      in (out, self)
  end.

(** *** Section 6: ResidualConnection *)

Definition ResidualConnection_init (dropout : A) : result (gmap string (value A)) :=
  d ← nn_Dropout dropout;
  let self : gmap string (value A) := <["dropout" := d]> ∅ in
  norm ← LayerNormalization_init LayerNormalization_eps;
  let self := <["norm" := VObj "LayerNormalization" norm]> self in
  Ok self.

Definition ResidualConnection_forward (keep : list nat → bool)
    (self : gmap string (value A)) (x : tensor A)
    (sublayer : tensor A → result (tensor A)) : result (tensor A) :=
  dropout ← getattr self "dropout";
  norm ← getattr self "norm";
  normed ← call keep norm x;
  y ← sublayer normed;
  z ← call keep dropout y;
  tadd x z.
End Notebook.

(** ** Section 1: InputEmbeddings *)

Section Embeddings.
Context `{Scalar A}.

(** [nn.Embedding(num_embeddings, embedding_dim)]: a module owning a
    weight of shape (num_embeddings, embedding_dim). *)
Definition nn_Embedding (init : list nat → list nat → A) (num_embeddings embedding_dim : Z)
    : result (value A) :=
  if bool_decide (num_embeddings < 0 ∨ embedding_dim < 0)%Z
  then Err (RuntimeError "Trying to create tensor with negative dimension")
  else
    let sw := [Z.to_nat num_embeddings; Z.to_nat embedding_dim] in
    Ok (VObj "Embedding" (<["weight" := VTensor (of_fun sw (init sw))]> ∅)).

(** The module classes of [torch.nn] the notebook instantiates, by
    attribute name; any other name is an AttributeError.  The names are
    case-sensitive. *)
Definition nn_getattr (init : list nat → list nat → A) (name : string)
    : result (list (value A) → result (value A)) :=
  if String.eqb name "Linear" then
    Ok (λ args, match args with
                | [VInt i; VInt o] => nn_Linear init i o
                | _ => Err (TypeError "Linear()")
                end)
  else if String.eqb name "Dropout" then
    Ok (λ args, match args with
                | [VFloat p] => nn_Dropout p
                | _ => Err (TypeError "Dropout()")
                end)
  else if String.eqb name "Embedding" then
    Ok (λ args, match args with
                | [VInt n; VInt d] => nn_Embedding init n d
                | _ => Err (TypeError "Embedding()")
                end)
  else Err (AttributeError name).

(** [F.embedding]: row [ids[idx]] of the weight for every index of the
    ids; an id outside [0, num_embeddings) is an IndexError. *)
Definition embedding_lookup (weight : tensor A) (ids : tensor Z) : result (tensor A) :=
  match shape weight with
  | [n; d] =>
      if forallb (λ idx, bool_decide (0 ≤ tget 0%Z ids idx < Z.of_nat n)%Z)
           (indices (shape ids))
      then Ok (of_fun (shape ids ++ [d]) (λ idx,
             get weight [Z.to_nat (tget 0%Z ids (removelast idx)); List.last idx 0]))
      else Err IndexError
  | _ => Err (RuntimeError "'weight' must be 2-D")
  end.

(** Calling the module held in [self.embedding] on a tensor of ids.  Only
    an Embedding takes integer ids; the float modules refuse them. *)
Definition call_ids (f : value A) (ids : tensor Z) : result (tensor A) :=
  match f with
  | VObj cls attrs =>
      if String.eqb cls "Embedding"
      then weight ← getattr attrs "weight" ≫= as_tensor "weight";
           embedding_lookup weight ids
      else Err (RuntimeError "expected a floating point tensor")
  | VLinear _ _ | VDropout _ _ => Err (RuntimeError "expected a floating point tensor")
  | VFloat _ => Err (TypeError "'float' object is not callable")
  | VInt _ => Err (TypeError "'int' object is not callable")
  | VNone => Err (TypeError "'NoneType' object is not callable")
  | VTensor _ => Err (TypeError "'Tensor' object is not callable")
  | VGlobal _ => Err (TypeError "missing required positional arguments")
  end.

(** An int is converted to a float, a double, by rounding to nearest:
    from 2^1024 - 2^970 on, in absolute value, it rounds past the largest
    double and the conversion raises OverflowError. *)
Definition float_overflow_bound : Z := (2 ^ 1024 - 2 ^ 970)%Z.

(** [math.sqrt] of a Python number: the argument is converted first and
    its sign is looked at afterwards. *)
Definition math_sqrt (v : value A) : result A :=
  match v with
  | VInt z => if bool_decide (float_overflow_bound ≤ Z.abs z)%Z
              then Err (OverflowError "int too large to convert to float")
              else if bool_decide (z < 0)%Z then Err (ValueError "math domain error")
              else Ok (fsqrt (of_Z z))
  | VFloat a => if fltb a fzero then Err (ValueError "math domain error")
                else Ok (fsqrt a)
  | _ => Err (TypeError "must be real number")
  end.

Definition InputEmbeddings_init (init : string → list nat → list nat → A)
    (d_model vocab_size : Z) : result (gmap string (value A)) :=
  let self : gmap string (value A) := <["d_model" := VInt d_model]> ∅ in
  let self := <["vocab_size" := VInt vocab_size]> self in
  embedding ← nn_getattr (init "embedding") "embedding";
  e ← embedding [VInt vocab_size; VInt d_model];
  Ok (<["embedding" := e]> self).

Definition InputEmbeddings_forward (self : gmap string (value A)) (x : tensor Z)
    : result (tensor A) :=
  embedding ← getattr self "embedding";
  e ← call_ids embedding x;
  d_model ← getattr self "d_model";
  r ← math_sqrt d_model;
  Ok (tmap fzero (λ a, fmul a r) e).
End Embeddings.

(** ** Sample inputs over the reals *)

Definition sample_x : tensor R := of_fun [1; 1; 4] (λ _, 1%R).
Definition sample_init (name : string) (s idx : list nat) : R := 0%R.
Definition sample_keep (idx : list nat) : bool := true.

(** An embedding table of 3 rows, ids inside and outside it, and an
    instance holding the table as the constructor means to. *)
Definition sample_weight : tensor R := of_fun [3; 4] (λ idx, INR (hd 0 idx)).
Definition sample_ids : tensor Z := of_fun [1; 2] (λ _, 2%Z).
Definition sample_bad_ids : tensor Z := of_fun [1; 2] (λ _, 3%Z).
Definition sample_embeddings : gmap string (value R) :=
  <["embedding" := VObj "Embedding" (<["weight" := VTensor sample_weight]> ∅)]>
    (<["d_model" := VInt 4]> ∅).

(** The notebook's globals with a name [mask] bound as well. *)
Definition sample_globals (mask : value R) : gmap string (value R) :=
  <["mask" := mask]> notebook_globals.
Definition sample_mask : tensor R := of_fun [1; 1; 1] (λ _, 0%R).
Definition sample_short_key : tensor R := of_fun [1; 1; 3] (λ _, 1%R).

(** Two keys for one query, and a mask that hides the second key. *)
Definition sample_keys : tensor R := of_fun [1; 2; 4] (λ _, 1%R).
Definition sample_key_mask : tensor R :=
  of_fun [1; 1; 2] (λ idx, match idx with [_; _; 0] => 1%R | _ => 0%R end).

(** A positional encoding holding a table for 2 positions and a dropout
    module, and an input of 3 positions. *)
Definition sample_pe : tensor R := of_fun [1; 2; 4] (λ _, 0%R).
Definition sample_positional : gmap string (value R) :=
  <["dropout" := VDropout 0%R false]> (<["pe" := VTensor sample_pe]> ∅).
Definition sample_long : tensor R := of_fun [1; 3; 4] (λ _, 1%R).

(** A feed-forward block holding its projections under lowercase names. *)
Definition sample_feed_forward : gmap string (value R) :=
  <["linear_2" := VLinear (of_fun [4; 8] (sample_init "linear_2" [4; 8]))
                          (of_fun [4] (sample_init "linear_2" [4]))]>
  (<["dropout" := VDropout 0%R false]>
  (<["linear_1" := VLinear (of_fun [8; 4] (sample_init "linear_1" [8; 4]))
                           (of_fun [8] (sample_init "linear_1" [8]))]> ∅)).


(** * Properties of the tensor model *)

Ltac lookup_attr :=
  repeat (rewrite lookup_insert_ne by done);
  first [rewrite lookup_insert_eq | rewrite lookup_empty]; done.

Section TensorLemmas.

(** ** Row-major indexing *)

Lemma in_range_length s idx : in_range s idx → length idx = length s.
Proof. apply Forall2_length. Qed.

Lemma in_range_1 a r : r < a → in_range [a] [r].
Proof. intros. repeat constructor; done. Qed.

Lemma in_range_2 a b r c : r < a → c < b → in_range [a; b] [r; c].
Proof. intros. repeat constructor; done. Qed.


Lemma in_range_snoc s d idx i : in_range s idx → i < d → in_range (s ++ [d]) (idx ++ [i]).
Proof. intros. apply Forall2_app; [done|]. by constructor. Qed.

Lemma in_range_snoc_inv s d idx :
  in_range (s ++ [d]) idx → ∃ idx' i, idx = idx' ++ [i] ∧ in_range s idx' ∧ i < d.
Proof.
  unfold in_range. intros (idx' & l & H1 & H2 & ->)%Forall2_app_inv_r.
  inv H2. match goal with Hn : Forall2 _ _ [] |- _ => inv Hn end. eauto.
Qed.

Lemma in_range_numel1 s idx : in_range s idx → numel1 s = numel s.
Proof.
  unfold in_range, numel1, numel. induction 1 as [|i d idx s Hi _ IH]; simpl; [done|].
  rewrite IH. f_equal. lia.
Qed.

Lemma numel1_numel s : numel s ≠ 0 → numel1 s = numel s.
Proof.
  unfold numel, numel1. induction s as [|d r IH]; simpl; [done|]. intros Hn.
  rewrite IH by nia. f_equal. nia.
Qed.

Lemma length_indices s : length (indices s) = numel s.
Proof.
  induction s as [|d r IH]; simpl; [done|].
  rewrite length_join, (sum_list_fmap_same (numel r)).
  - by rewrite length_fmap, length_seq.
  - apply Forall_fmap, Forall_forall. intros j _. simpl. by rewrite length_fmap.
Qed.

Lemma flat_index_lt s idx : in_range s idx → flat_index (contiguous_strides s) idx < numel s.
Proof.
  unfold in_range. induction 1 as [|i d idx s Hi Hr IH]; simpl; [lia|].
  rewrite (in_range_numel1 s idx Hr). unfold numel in *. nia.
Qed.

Lemma lookup_indices s idx :
  in_range s idx → indices s !! flat_index (contiguous_strides s) idx = Some idx.
Proof.
  unfold in_range. induction 1 as [|i d idx s Hi Hr IH]; simpl; [done|].
  rewrite (in_range_numel1 s idx Hr).
  apply (join_lookup_Some_same_length' (numel s)).
  - apply Forall_fmap, Forall_forall. intros j _. simpl. by rewrite length_fmap, length_indices.
  - by apply flat_index_lt.
  - exists ((i ::.) <$> indices s). split.
    + rewrite list_lookup_fmap, lookup_seq_lt by done. done.
    + rewrite list_lookup_fmap, IH. done.
Qed.

(** A tensor built by [of_fun] holds [f idx] at every index in range. *)
Lemma tget_of_fun {X} (d : X) s f idx : in_range s idx → tget d (of_fun s f) idx = f idx.
Proof.
  intros Hr. unfold tget, of_fun. simpl.
  apply nth_lookup_Some. rewrite list_lookup_fmap, lookup_indices by done. done.
Qed.

Lemma tget_tmap {X Y} (d : X) (e : Y) (f : X → Y) t idx :
  in_range (shape t) idx → tget e (tmap d f t) idx = f (tget d t idx).
Proof. intros. unfold tmap. by rewrite tget_of_fun. Qed.

(** ** Broadcasting *)

Lemma bshape_rev_refl l : bshape_rev l l = Ok l.
Proof. induction l as [|x l IH]; simpl; [done|]. rewrite IH. simpl. by rewrite Nat.eqb_refl. Qed.

Lemma broadcast_shapes_keepdim s d : broadcast_shapes (s ++ [d]) (s ++ [1]) = Ok (s ++ [d]).
Proof.
  unfold broadcast_shapes. rewrite !reverse_snoc. simpl. rewrite bshape_rev_refl. simpl.
  destruct (d =? 1) eqn:E; simpl; by rewrite reverse_cons, reverse_involutive.
Qed.

Lemma broadcast_shapes_one_l s d : broadcast_shapes [1] (s ++ [d]) = Ok (s ++ [d]).
Proof.
  unfold broadcast_shapes. rewrite !reverse_snoc. simpl.
  destruct d as [|[|d]]; simpl; by rewrite reverse_cons, reverse_involutive.
Qed.

Lemma broadcast_shapes_one_r s d : broadcast_shapes (s ++ [d]) [1] = Ok (s ++ [d]).
Proof.
  unfold broadcast_shapes. rewrite !reverse_snoc. simpl.
  assert (bshape_rev (reverse s) [] = Ok (reverse s)) as -> by (by destruct (reverse s)).
  simpl. destruct (d =? 1) eqn:E; simpl; by rewrite reverse_cons, reverse_involutive.
Qed.

Lemma broadcast_column_row (n m : nat) : 0 < m → broadcast_shapes [n; 1] [m] = Ok [n; m].
Proof. intros. unfold broadcast_shapes. cbn. by destruct m as [|[|m']]. Qed.

Lemma bidx_zip_self s idx :
  in_range s idx → zip_with (λ d i, if d =? 1 then 0 else i) s idx = idx.
Proof.
  induction 1 as [|i d idx s Hi Hr IH]; simpl; [done|].
  rewrite IH. destruct (d =? 1) eqn:E; [|done]. apply Nat.eqb_eq in E. f_equal. lia.
Qed.

Lemma bidx_self s idx : in_range s idx → bidx s idx = idx.
Proof.
  intros Hr. unfold bidx. rewrite (in_range_length _ _ Hr), Nat.sub_diag, drop_0.
  by apply bidx_zip_self.
Qed.

Lemma bidx_keepdim s idx i :
  length idx = length s → bidx (s ++ [1]) (idx ++ [i]) = bidx s idx ++ [0].
Proof.
  intros Hl. unfold bidx. rewrite !length_app, Hl. simpl.
  rewrite !Nat.sub_diag, !drop_0.
  rewrite zip_with_app by done. done.
Qed.

Lemma bidx_one idx i : bidx [1] (idx ++ [i]) = [0].
Proof.
  unfold bidx. rewrite length_app. simpl.
  replace (length idx + 1 - 1) with (length idx) by lia.
  rewrite drop_app_length. done.
Qed.

Lemma bidx_column (n r c : nat) : r < n → bidx [n; 1] [r; c] = [r; 0].
Proof.
  intros. unfold bidx. cbn. destruct (n =? 1) eqn:E; [|done].
  apply Nat.eqb_eq in E. do 2 f_equal. lia.
Qed.

Lemma bidx_row (m r c : nat) : c < m → bidx [m] [r; c] = [c].
Proof.
  intros. unfold bidx. cbn. destruct (m =? 1) eqn:E; [|done].
  apply Nat.eqb_eq in E. f_equal. lia.
Qed.

Lemma expandable_refl s : expandable s s = true.
Proof.
  unfold expandable. rewrite bool_decide_eq_true_2 by done. simpl.
  induction (reverse s) as [|d l IH]; simpl; [done|]. by rewrite Nat.eqb_refl, IH.
Qed.

(** ** Rows and reductions *)

Lemma removelast_snoc {X} (l : list X) x : removelast (l ++ [x]) = l.
Proof. by rewrite removelast_last. Qed.

Lemma row_snoc {X} (d : X) t s n pre :
  shape t = s ++ [n] → row d t pre = (λ j, tget d t (pre ++ [j])) <$> seq 0 n.
Proof. intros Hs. unfold row. rewrite Hs, last_last. by destruct s. Qed.

Lemma reduce_last_snoc {X Y} (d : X) (f : list X → Y) t s n :
  shape t = s ++ [n] →
  reduce_last d f t = of_fun (s ++ [1]) (λ idx, f (row d t (removelast idx))).
Proof. intros Hs. unfold reduce_last. rewrite Hs, removelast_snoc. by destruct s. Qed.

(** ** Contiguity, [view] and [transpose] *)

Lemma contig_aux_row_major s : numel s ≠ 0 → contig_aux s (contiguous_strides s) = true.
Proof.
  induction s as [|d r IH]; simpl; [done|]. intros Hn.
  assert (numel r ≠ 0) by (unfold numel in *; simpl in *; nia).
  rewrite numel1_numel, Nat.eqb_refl, orb_true_r, IH by done. done.
Qed.

Lemma is_contiguous_row_major {X} (t : tensor X) : row_major t → is_contiguous t = true.
Proof.
  unfold row_major. intros Hst. unfold is_contiguous. rewrite Hst.
  destruct (numel (shape t) =? 0) eqn:E; [done|].
  apply Nat.eqb_neq in E. by rewrite contig_aux_row_major.
Qed.

(** [contiguous] hands back a row-major tensor unchanged. *)
Lemma contiguous_row_major {X} (d : X) (t : tensor X) : row_major t → contiguous d t = t.
Proof. intros Hst. unfold contiguous. by rewrite is_contiguous_row_major. Qed.

Lemma filter_nonneg_all (args : list Z) :
  Forall (λ a, 0 ≤ a)%Z args → filter (λ a, 0 ≤ a)%Z args = args.
Proof.
  induction 1 as [|a l Ha _ IH]; [done|].
  rewrite filter_cons_True by (simpl; lia). by rewrite IH.
Qed.

Lemma filter_minus1_none (args : list Z) :
  Forall (λ a, 0 ≤ a)%Z args → filter (λ a, a = -1)%Z args = [].
Proof.
  induction 1 as [|a l Ha _ IH]; [done|].
  rewrite filter_cons_False by (simpl; lia). done.
Qed.

(** Sizes without a -1 are taken as they are when the element counts agree. *)
Lemma infer_size_exact (args : list Z) n :
  Forall (λ a, 0 ≤ a)%Z args → numel (Z.to_nat <$> args) = n →
  infer_size args n = Ok (Z.to_nat <$> args).
Proof.
  intros Hall Hn. unfold infer_size.
  rewrite bool_decide_eq_false_2.
  2:{ rewrite Exists_exists. intros (a & Hin & Hlt).
      rewrite Forall_forall in Hall. specialize (Hall a Hin). simpl in *. lia. }
  rewrite filter_nonneg_all, filter_minus1_none by done. simpl.
  by rewrite Hn, Nat.eqb_refl.
Qed.


Lemma shape_at_0 {X} (t : tensor X) d r : shape t = d :: r → shape_at t 0 = Ok (Z.of_nat d).
Proof.
  intros Hs. unfold shape_at, ndim. rewrite Hs. simpl length.
  rewrite bool_decide_eq_true_2 by lia.
  rewrite (bool_decide_eq_false_2 (0 < 0)%Z) by lia. done.
Qed.

Lemma shape_at_1 {X} (t : tensor X) d e r :
  shape t = d :: e :: r → shape_at t 1 = Ok (Z.of_nat e).
Proof.
  intros Hs. unfold shape_at, ndim. rewrite Hs. simpl length.
  rewrite bool_decide_eq_true_2 by lia.
  rewrite (bool_decide_eq_false_2 (1 < 0)%Z) by lia. done.
Qed.


End TensorLemmas.

(** * The notebook's classes *)

Section NotebookLemmas.
Context `{Scalar A}.
Implicit Types (self G : gmap string (value A)) (x q k v : tensor A).

(** ** Specifications of the tensor operations the classes call *)

Lemma full_nonneg (sizes : list Z) (a : A) :
  Forall (λ z, 0 ≤ z)%Z sizes → full sizes a = Ok (of_fun (Z.to_nat <$> sizes) (λ _, a)).
Proof.
  intros Hall. unfold full. rewrite bool_decide_eq_false_2; [done|].
  rewrite Exists_exists. intros (z & Hin & Hlt).
  rewrite Forall_forall in Hall. specialize (Hall z Hin). simpl in *. lia.
Qed.

Lemma arange_spec (stop step : Z) (n : nat) :
  (0 ≤ stop)%Z → Z.to_nat ((stop + step - 1) / step) = n →
  ∃ t, arange stop step = Ok t ∧ shape t = [n] ∧ strides t = [1] ∧ offset t = 0 ∧
    ∀ i, i < n → get t [i] = of_Z (Z.of_nat i * step).
Proof.
  intros Hs Hn. unfold arange. rewrite bool_decide_eq_false_2 by lia. rewrite Hn.
  eexists. split_and!; try done.
  intros i Hi. unfold get. by rewrite tget_of_fun by (by apply in_range_1).
Qed.

Lemma unsqueeze_column (t : tensor A) (n : nat) :
  shape t = [n] → strides t = [1] → offset t = 0 →
  ∃ t', unsqueeze 1 t = Ok t' ∧ shape t' = [n; 1] ∧
    ∀ r, get t' [r; 0] = get t [r].
Proof.
  intros Hs Hst Ho. unfold unsqueeze, ndim. rewrite Hs, Hst. simpl.
  eexists. split; [done|]. split; [done|].
  intros r. unfold get, tget. simpl. rewrite Hst. simpl. f_equal; lia.
Qed.

Lemma tmap2_spec (f : A → A → A) (a b : tensor A) s :
  broadcast_shapes (shape a) (shape b) = Ok s →
  ∃ t, tmap2 fzero fzero f a b = Ok t ∧ shape t = s ∧
    ∀ idx, in_range s idx →
      get t idx = f (get a (bidx (shape a) idx)) (get b (bidx (shape b) idx)).
Proof.
  intros Hb. unfold tmap2. rewrite Hb. simpl.
  eexists. split; [done|]. split; [done|].
  intros idx Hr. unfold get. by rewrite tget_of_fun.
Qed.

Lemma get_tmap (f : A → A) (t : tensor A) idx :
  in_range (shape t) idx → get (tmap fzero f t) idx = f (get t idx).
Proof. apply tget_tmap. Qed.

Lemma setitem_cols_spec (t v : tensor A) (start step rows cols : nat) :
  shape t = [rows; cols] →
  expandable (shape v) [rows; (cols - start + step - 1) / step] = true →
  ∃ t', setitem_cols t start step v = Ok t' ∧ shape t' = [rows; cols] ∧
    ∀ r c, r < rows → c < cols →
      get t' [r; c] =
        if (start <=? c) && ((c - start) mod step =? 0)
        then get v (bidx (shape v) [r; (c - start) / step])
        else get t [r; c].
Proof.
  intros Hs He. unfold setitem_cols. rewrite Hs, He.
  eexists. split; [done|]. split; [done|].
  intros r c Hr Hc. unfold get. by rewrite tget_of_fun by (by apply in_range_2).
Qed.

(** nn.Linear maps (batch, seq, in) to (batch, seq, out). *)
Lemma linear_forward_shape (init1 init2 : list nat → A) (o i b s : nat) x :
  shape x = [b; s; i] →
  ∃ y, linear_forward (of_fun [o; i] init1) (of_fun [o] init2) x = Ok y ∧
       shape y = [b; s; o].
Proof.
  intros Hx. unfold linear_forward, transpose, ndim. simpl.
  unfold matmul. rewrite Hx. simpl. rewrite Nat.eqb_refl.
  unfold broadcast_shapes. simpl.
  unfold tadd, tmap2, broadcast_shapes. simpl. rewrite Nat.eqb_refl. simpl.
  eexists. split; done.
Qed.

(** ** Constructors *)

Lemma nn_Linear_inv init i o (l : value A) :
  nn_Linear init i o = Ok l →
  (0 ≤ i)%Z ∧ (0 ≤ o)%Z ∧
  l = VLinear (of_fun [Z.to_nat o; Z.to_nat i] (init [Z.to_nat o; Z.to_nat i]))
              (of_fun [Z.to_nat o] (init [Z.to_nat o])).
Proof.
  unfold nn_Linear. case_bool_decide; [done|]. intros [= <-]. repeat split; lia.
Qed.

Lemma nn_Dropout_inv (p : A) d : nn_Dropout p = Ok d → d = VDropout p true.
Proof. unfold nn_Dropout. destruct (_ || _); [done|]. by intros [= <-]. Qed.

Lemma LayerNormalization_init_attrs (eps : A) :
  ∃ self, LayerNormalization_init eps = Ok self ∧
    self !! "eps" = Some (VFloat eps) ∧
    self !! "alpha" = Some (VTensor (of_fun [1] (λ _, fone))) ∧
    self !! "bias" = Some (VTensor (of_fun [1] (λ _, fzero))).
Proof. eexists. split; [reflexivity|]. split_and!; lookup_attr. Qed.

Lemma FeedForwardBlock_init_attrs init d_model d_ff (p : A) self :
  FeedForwardBlock_init init d_model d_ff p = Ok self →
  ∃ l1 l2 d, self = <["Linear_2" := l2]> (<["dropout" := d]> (<["Linear_1" := l1]> ∅)).
Proof.
  unfold FeedForwardBlock_init. intros Hi.
  destruct (nn_Linear (init "Linear_1") d_model d_ff) as [l1|]; simpl in Hi; [|done].
  destruct (nn_Dropout p) as [d|]; simpl in Hi; [|done].
  destruct (nn_Linear (init "Linear_2") d_ff d_model) as [l2|]; simpl in Hi; [|done].
  inv Hi. by exists l1, l2, d.
Qed.

Lemma MultiHeadAttentionBlock_init_inv init d_model h (p : A) self :
  MultiHeadAttentionBlock_init init d_model h p = Ok self →
  h ≠ 0%Z ∧ (d_model mod h = 0)%Z ∧ (0 ≤ d_model)%Z ∧
  ∃ w_q w_k w_v w_o,
    nn_Linear (init "w_q") d_model d_model = Ok w_q ∧
    nn_Linear (init "w_k") d_model d_model = Ok w_k ∧
    nn_Linear (init "w_v") d_model d_model = Ok w_v ∧
    nn_Linear (init "w_o") d_model d_model = Ok w_o ∧
    self = <["dropout" := VDropout p true]> (<["w_o" := w_o]> (<["w_v" := w_v]>
           (<["w_k" := w_k]> (<["w_q" := w_q]> (<["d_k" := VInt (d_model / h)]>
           (<["h" := VInt h]> (<["d_model" := VInt d_model]> ∅))))))).
Proof.
  unfold MultiHeadAttentionBlock_init, py_mod, py_floordiv, py_assert.
  case_bool_decide as Hh; [done|]. simpl.
  case_bool_decide as Hm; [|done]. simpl.
  destruct (nn_Linear (init "w_q") d_model d_model) as [w_q|] eqn:Eq; simpl; [|done].
  destruct (nn_Linear (init "w_k") d_model d_model) as [w_k|] eqn:Ek; simpl; [|done].
  destruct (nn_Linear (init "w_v") d_model d_model) as [w_v|] eqn:Ev; simpl; [|done].
  destruct (nn_Linear (init "w_o") d_model d_model) as [w_o|] eqn:Eo; simpl; [|done].
  destruct (nn_Dropout p) as [d|] eqn:Ed; simpl; [|done].
  apply nn_Dropout_inv in Ed as ->. intros [= <-].
  destruct (nn_Linear_inv _ _ _ _ Eq) as (? & _ & _).
  repeat split; try done. by exists w_q, w_k, w_v, w_o.
Qed.

(** A constructed ResidualConnection holds a dropout module in training
    mode and a LayerNormalization with the default eps. *)
Lemma ResidualConnection_init_attrs (p : A) self :
  ResidualConnection_init p = Ok self →
  self !! "dropout" = Some (VDropout p true) ∧
  ∃ norm, LayerNormalization_init LayerNormalization_eps = Ok norm ∧
    self !! "norm" = Some (VObj "LayerNormalization" norm).
Proof.
  unfold ResidualConnection_init.
  destruct (nn_Dropout p) as [d|] eqn:Ed; simpl; [|done].
  apply nn_Dropout_inv in Ed as ->.
  intros [= <-]. split; [lookup_attr|]. eexists. split; [reflexivity|lookup_attr].
Qed.

(** ** The forward pass of the attention block never gets past line 249 *)

(** The fourth size handed to [view] on line 249 is the instance itself. *)
Lemma view_v_self t (a b c d : value A) cls self :
  is_Err (view_v t [a; b; c; VObj cls self; d]).
Proof.
  unfold view_v, is_Err. simpl.
  destruct (as_int a); simpl; eauto.
  destruct (as_int b); simpl; eauto.
  destruct (as_int c); simpl; eauto.
Qed.

Lemma MultiHeadAttentionBlock_forward_aborts G keep self q k v (mask : value A) :
  ∃ e, MultiHeadAttentionBlock_forward G keep self q k v mask = (Err e, self).
Proof.
  unfold MultiHeadAttentionBlock_forward.
  match goal with |- context [match ?b with Ok _ => _ | Err _ => _ end] =>
    assert (Hb : is_Err b) end.
  { unfold getattr, is_Err.
    destruct (self !! "w_q") as [w_q|]; simpl; eauto.
    destruct (call keep w_q q) as [query|]; simpl; eauto.
    destruct (self !! "w_k") as [w_k|]; simpl; eauto.
    destruct (call keep w_k k) as [key|]; simpl; eauto.
    destruct (self !! "w_v") as [w_v|]; simpl; eauto.
    destruct (call keep w_v v) as [value|]; simpl; eauto.
    destruct (shape_at query 0) as [s0|]; simpl; eauto.
    destruct (shape_at query 1) as [s1|]; simpl; eauto.
    destruct (self !! "h") as [h|]; simpl; eauto.
    destruct (lookup_name G "d_k") as [d_k|]; simpl; eauto.
    destruct (view_v_self query (VInt s0) (VInt s1) h d_k "MultiHeadAttentionBlock" self)
      as [e ->].
    simpl. eauto. }
  destruct Hb as [e ->]. eauto.
Qed.

Lemma MultiHeadAttentionBlock_forward_frame G keep self q k v (mask : value A) name :
  (MultiHeadAttentionBlock_forward G keep self q k v mask).2 !! name = self !! name.
Proof.
  by destruct (MultiHeadAttentionBlock_forward_aborts G keep self q k v mask) as [e ->].
Qed.

(** ** Masking inside the static method *)

(** [masked_fill_] writes the fill value wherever the expanded mask holds. *)
Lemma masked_fill_get (t t' : tensor A) (m : tensor bool) (a : A) idx :
  masked_fill_ t m a = Ok t' → in_range (shape t) idx →
  shape t' = shape t ∧
  get t' idx = if tget false m (bidx (shape m) idx) then a else get t idx.
Proof.
  unfold masked_fill_. destruct (expandable _ _); [|done]. intros [= <-] Hr.
  split; [done|]. unfold get. by rewrite tget_of_fun.
Qed.

(** Were a tensor bound to the global name [mask], the scores would be
    filled where it is 0 and only then passed to softmax and dropout. *)
Lemma MultiHeadAttentionBlock_attention_global_mask G keep (query key value m : tensor A)
    (p : A) (training : bool) d_k kt qk :
  G !! "mask" = Some (VTensor m) →
  shape_at query (-1) = Ok d_k →
  transpose (-2) (-1) key = Ok kt →
  matmul query kt = Ok qk →
  MultiHeadAttentionBlock_attention G keep
    [VTensor query; VTensor key; VTensor value; VDropout p training] =
    (filled ← masked_fill_ (tmap fzero (λ a, fdiv a (fsqrt (of_Z d_k))) qk)
                (eq_scalar m fzero) (of_Q (-1000000000));
     let probs := dropout_forward keep p training (softmax filled) in
     out ← matmul probs value;
     Ok (out, probs)).
Proof.
  intros Hm Hd Ht Hq. unfold MultiHeadAttentionBlock_attention, lookup_name.
  cbn [as_tensor as_operand mbind result_bind]. rewrite Hd. cbn [mbind result_bind].
  rewrite Ht. cbn [mbind result_bind]. rewrite Hq. cbn [mbind result_bind].
  rewrite Hm. cbn [mbind result_bind].
  destruct (masked_fill_ _ _ _) as [filled|]; [|done]. done.
Qed.

(** ** The sinusoidal table as lines 83-91 compute it *)

(** For an even d_model = 2m the two column assignments succeed, and the
    entry at column 2i (2i+1) is the sine (cosine) of [pe_angle]. *)
Lemma PositionalEncoding_table_entries (m len : nat) :
  0 < m →
  ∃ pe, PositionalEncoding_table (Z.of_nat (2 * m)) (Z.of_nat len) = Ok pe ∧
    shape pe = [len; 2 * m] ∧
    ∀ pos i, pos < len → i < m →
      get pe [pos; 2 * i] = fsin (pe_angle (Z.of_nat (2 * m)) pos i) ∧
      get pe [pos; 2 * i + 1] = fcos (pe_angle (Z.of_nat (2 * m)) pos i).
Proof.
  intros Hm. unfold PositionalEncoding_table, zeros.
  rewrite full_nonneg by (repeat constructor; lia).
  cbn [mbind result_bind fmap list_fmap]. rewrite !Nat2Z.id.
  destruct (arange_spec (Z.of_nat len) 1 len) as (pos0 & -> & Hs0 & Hst0 & Ho0 & Hg0);
    [lia | rewrite Z.div_1_r; lia |].
  cbn [mbind result_bind].
  destruct (unsqueeze_column pos0 len Hs0 Hst0 Ho0) as (position & -> & Hsp & Hgp).
  cbn [mbind result_bind].
  destruct (arange_spec (Z.of_nat (2 * m)) 2 m) as (ar & -> & Hsa & _ & _ & Hga); [lia | |].
  { replace (Z.of_nat (2 * m) + 2 - 1)%Z with (1 + Z.of_nat m * 2)%Z by lia.
    rewrite Z.div_add by lia. change (1 / 2)%Z with 0%Z. lia. }
  cbn [mbind result_bind].
  rewrite (bool_decide_eq_false_2 (Z.of_nat (2 * m) = 0)%Z) by lia.
  cbn [mbind result_bind].
  set (c := fdiv (flog (of_Q 10000)) (of_Z (Z.of_nat (2 * m)))).
  set (div_term := tmap fzero fexp (tmap fzero (λ a, fmul a c) ar)).
  assert (Hsd : shape div_term = [m]) by done.
  assert (Hgd : ∀ i, i < m → get div_term [i] = fexp (fmul (of_Z (Z.of_nat i * 2)) c)).
  { intros i Hi. unfold div_term.
    rewrite get_tmap by (cbn; rewrite Hsa; by apply in_range_1).
    rewrite get_tmap by (rewrite Hsa; by apply in_range_1).
    by rewrite Hga. }
  clearbody div_term.
  destruct (tmap2_spec fmul position div_term [len; m]) as (a & Ha & Hsha & Hgeta).
  { rewrite Hsp, Hsd. by apply broadcast_column_row. }
  unfold tmul. rewrite Ha. cbn [mbind result_bind].
  assert (Hang : ∀ pos i, pos < len → i < m →
            get a [pos; i] = pe_angle (Z.of_nat (2 * m)) pos i).
  { intros pos i Hp Hi. rewrite Hgeta by (by apply in_range_2).
    rewrite Hsp, Hsd, bidx_column, bidx_row by done.
    by rewrite Hgp, Hg0, Hgd. }
  destruct (setitem_cols_spec (of_fun [len; 2 * m] (λ _, fzero)) (tmap fzero fsin a)
              0 2 len (2 * m)) as (pe1 & -> & Hs1 & Hg1); [done | |].
  { cbn [shape tmap of_fun]. rewrite Hsha.
    replace ((2 * m - 0 + 2 - 1) / 2) with m; [apply expandable_refl|].
    apply (Nat.div_unique _ _ _ 1); lia. }
  cbn [mbind result_bind].
  destruct (setitem_cols_spec pe1 (tmap fzero fcos a) 1 2 len (2 * m))
    as (pe2 & -> & Hs2 & Hg2); [done | |].
  { cbn [shape tmap of_fun]. rewrite Hsha.
    replace ((2 * m - 1 + 2 - 1) / 2) with m; [apply expandable_refl|].
    apply (Nat.div_unique _ _ _ 0); lia. }
  cbn [mbind result_bind].
  exists pe2. split; [done|]. split; [done|].
  intros pos i Hp Hi. split.
  - rewrite Hg2, Hg1 by lia.
    replace ((1 <=? 2 * i) && ((2 * i - 1) mod 2 =? 0)) with false.
    2:{ symmetry. apply andb_false_iff. destruct i as [|i']; [by left|right].
        apply Nat.eqb_neq. replace (2 * S i' - 1) with (1 + i' * 2) by lia.
        rewrite Nat.Div0.mod_add. done. }
    replace ((0 <=? 2 * i) && ((2 * i - 0) mod 2 =? 0)) with true.
    2:{ symmetry. apply andb_true_iff. split; [done|]. apply Nat.eqb_eq.
        replace (2 * i - 0) with (0 + i * 2) by lia. by rewrite Nat.Div0.mod_add. }
    replace ((2 * i - 0) / 2) with i.
    2:{ replace (2 * i - 0) with (i * 2) by lia. by rewrite Nat.div_mul. }
    cbn [shape tmap of_fun]. rewrite Hsha, bidx_self by (by apply in_range_2).
    rewrite get_tmap by (rewrite Hsha; by apply in_range_2). by rewrite Hang.
  - rewrite Hg2 by lia.
    replace ((1 <=? 2 * i + 1) && ((2 * i + 1 - 1) mod 2 =? 0)) with true.
    2:{ symmetry. apply andb_true_iff. split; [apply Nat.leb_le; lia|]. apply Nat.eqb_eq.
        replace (2 * i + 1 - 1) with (0 + i * 2) by lia. by rewrite Nat.Div0.mod_add. }
    replace ((2 * i + 1 - 1) / 2) with i.
    2:{ replace (2 * i + 1 - 1) with (i * 2) by lia. by rewrite Nat.div_mul. }
    cbn [shape tmap of_fun]. rewrite Hsha, bidx_self by (by apply in_range_2).
    rewrite get_tmap by (rewrite Hsha; by apply in_range_2). by rewrite Hang.
Qed.

(** ** Recombination of the heads *)


(** * The claims *)

(** C1. Scaled dot-product attention fills the masked scores with -1e9
    before the softmax whenever a mask is supplied.  The static method has
    no [mask] parameter: with the notebook's globals it computes the
    scores and then stops on the unbound name [mask], before any fill or
    softmax, and the five-argument call of line 254 that would pass a mask
    is refused for any globals. *)
Theorem MultiHeadAttentionBlock_attention_mask_unbound G keep
    (query key value mask dropout : value A) :
  MultiHeadAttentionBlock_attention notebook_globals keep [query; key; value; dropout] =
    (query ← as_tensor "shape" query;
     d_k ← shape_at query (-1);
     key ← as_tensor "transpose" key;
     kt ← transpose (-2) (-1) key;
     qk ← matmul query kt;
     Err (NameError "mask")) ∧
  MultiHeadAttentionBlock_attention G keep [query; key; value; mask; dropout] =
    Err (TypeError "attention() takes 4 positional arguments").
Proof.
  split; [|done].
  unfold MultiHeadAttentionBlock_attention.
  destruct (as_tensor "shape" query) as [qt|]; simpl; [|done].
  destruct (shape_at qt (-1)) as [d|]; simpl; [|done].
  destruct (as_tensor "transpose" key) as [kt|]; simpl; [|done].
  destruct (transpose (-2) (-1) kt) as [ktt|]; simpl; [|done].
  destruct (matmul qt ktt) as [qk|]; simpl; [|done].
  done.
Qed.

(** C2. forward splits each of the projected q, k, v into heads on its
    own.  On an instance built by the constructor and inputs of shape
    (batch, seq_len, d_model), forward instead stops on line 249 with the
    unbound name [d_k] (written [self,d_k]); no tensor is split and the
    instance is left as it was. *)
Theorem MultiHeadAttentionBlock_forward_name_error init (d_model h : Z) (p : A)
    self keep q k v (mask : value A) (batch seq_q seq_k seq_v : nat) :
  MultiHeadAttentionBlock_init init d_model h p = Ok self →
  shape q = [batch; seq_q; Z.to_nat d_model] →
  shape k = [batch; seq_k; Z.to_nat d_model] →
  shape v = [batch; seq_v; Z.to_nat d_model] →
  MultiHeadAttentionBlock_forward notebook_globals keep self q k v mask
    = (Err (NameError "d_k"), self).
Proof.
  intros Hi Hq Hk Hv.
  destruct (MultiHeadAttentionBlock_init_inv _ _ _ _ _ Hi)
    as (Hh & Hm & Hd & wq & wk & wv & wo & Eq & Ek & Ev & Eo & ->).
  apply nn_Linear_inv in Eq as (_ & _ & ->), Ek as (_ & _ & ->), Ev as (_ & _ & ->).
  unfold MultiHeadAttentionBlock_forward, getattr.
  repeat match goal with
  | |- context [?m !! ?key] =>
      lazymatch m with
      | insert _ _ _ =>
          let r := fresh in
          evar (r : option (value A));
          assert (m !! key = r) as -> by (subst r; lookup_attr); subst r
      end
  end.
  simpl. unfold call. simpl.
  destruct (linear_forward_shape (init "w_q" [Z.to_nat d_model; Z.to_nat d_model])
              (init "w_q" [Z.to_nat d_model]) (Z.to_nat d_model) _ _ _ q Hq)
    as (query & -> & Hsq).
  destruct (linear_forward_shape (init "w_k" [Z.to_nat d_model; Z.to_nat d_model])
              (init "w_k" [Z.to_nat d_model]) (Z.to_nat d_model) _ _ _ k Hk)
    as (key & -> & Hsk).
  destruct (linear_forward_shape (init "w_v" [Z.to_nat d_model; Z.to_nat d_model])
              (init "w_v" [Z.to_nat d_model]) (Z.to_nat d_model) _ _ _ v Hv)
    as (value & -> & Hsv).
  simpl.
  rewrite (shape_at_0 query _ _ Hsq), (shape_at_1 query _ _ _ Hsq). simpl.
  done.
Qed.

(** C3. The constructor of PositionalEncoding builds the sinusoidal table.
    It never returns: whatever d_model, seq_len and dropout are, the
    constructor ends in an exception (for the table of
    [PositionalEncoding_table_entries], on the misspelt [pe.unsqueece]),
    so no table is registered. *)
Theorem PositionalEncoding_init_fails (d_model seq_len : Z) (dropout : A) :
  is_Err (PositionalEncoding_init d_model seq_len dropout) ∧
  ∀ m len, 0 < m →
    PositionalEncoding_init (Z.of_nat (2 * m)) (Z.of_nat len) dropout =
      Err (AttributeError "unsqueece").
Proof.
  split.
  - unfold PositionalEncoding_init, is_Err.
    destruct (PositionalEncoding_table d_model seq_len) as [pe|e]; simpl; eauto.
  - intros m len Hm. unfold PositionalEncoding_init.
    by destruct (PositionalEncoding_table_entries m len Hm) as (pe & -> & _).
Qed.

(** C4. LayerNormalization.forward returns, for every innermost vector v
    of the input, alpha * (v - mean) / (std + eps) + bias elementwise,
    with mean the average of v, std its sample standard deviation and eps
    added to the standard deviation. *)
Theorem LayerNormalization_forward_formula self x (alpha bias : tensor A) (eps : A) :
  self !! "alpha" = Some (VTensor alpha) →
  self !! "bias" = Some (VTensor bias) →
  self !! "eps" = Some (VFloat eps) →
  shape alpha = [1] → shape bias = [1] →
  shape x ≠ [] →
  ∃ y, LayerNormalization_forward self x = Ok y ∧ shape y = shape x ∧
    ∀ idx, in_range (shape x) idx →
      let v := row fzero x (removelast idx) in
      get y idx =
        fadd (fdiv (fmul (get alpha [0]) (fsub (get x idx) (avg v)))
                   (fadd (sample_std v) eps))
             (get bias [0]).
Proof.
  intros Ha Hb He Hsa Hsb Hx.
  destruct (exists_last Hx) as (s & n & Hs).
  unfold LayerNormalization_forward, getattr. rewrite Ha, Hb, He. simpl.
  unfold mean_keepdim, std_keepdim.
  rewrite !(reduce_last_snoc _ _ x s n Hs).
  unfold tsub, tmul, tdiv, tadd, tmap2, tmap. simpl.
  rewrite Hsa, Hsb, Hs.
  rewrite broadcast_shapes_keepdim. simpl.
  rewrite broadcast_shapes_one_l. simpl.
  rewrite broadcast_shapes_keepdim. simpl.
  rewrite broadcast_shapes_one_r. simpl.
  eexists. split; [done|]. split; [done|].
  intros idx Hr. simpl.
  destruct (in_range_snoc_inv _ _ _ Hr) as (pre & i & -> & Hpre & Hi).
  pose proof (in_range_length _ _ Hpre) as Hlen.
  assert (Hk : in_range (s ++ [1]) (pre ++ [0])) by (apply in_range_snoc; [done|lia]).
  unfold get.
  repeat first
    [ rewrite (bidx_self _ _ Hr) | rewrite bidx_one
    | rewrite (bidx_keepdim _ _ _ Hlen) | rewrite (bidx_self _ _ Hpre)
    | rewrite tget_of_fun by done | rewrite removelast_snoc ].
  done.
Qed.

(** C5. Splitting a tensor into heads and recombining returns the tensor.
    forward is where the notebook splits (lines 249-253) and recombines
    (line 256).  On every constructed instance, so with d_model % h == 0,
    for every tensor x of shape (batch, seq_len, d_model) passed as q, k
    and v, every mask and every binding of the globals, the split of
    line 249 raises: NameError when no global [d_k] is bound, TypeError
    otherwise.  Line 256 is never reached and no tensor, x least of all,
    is returned. *)
Theorem MultiHeadAttentionBlock_forward_no_round_trip init (d_model h : Z) (p : A)
    self G keep x (mask : value A) (batch seq_len : nat) :
  MultiHeadAttentionBlock_init init d_model h p = Ok self →
  shape x = [batch; seq_len; Z.to_nat d_model] →
  (d_model mod h = 0)%Z ∧
  (∃ e, MultiHeadAttentionBlock_forward G keep self x x x mask = (Err e, self) ∧
     match G !! "d_k" with
     | None => e = NameError "d_k"
     | Some _ => ∃ msg, e = TypeError msg
     end) ∧
  (MultiHeadAttentionBlock_forward G keep self x x x mask).1 ≠ Ok x.
Proof.
  intros Hi Hx.
  assert (Hf : ∃ e, MultiHeadAttentionBlock_forward G keep self x x x mask = (Err e, self) ∧
             match G !! "d_k" with
             | None => e = NameError "d_k"
             | Some _ => ∃ msg, e = TypeError msg
             end).
  { destruct (MultiHeadAttentionBlock_init_inv _ _ _ _ _ Hi)
      as (Hh & Hm & Hd & wq & wk & wv & wo & Eq & Ek & Ev & Eo & ->).
    apply nn_Linear_inv in Eq as (_ & _ & ->), Ek as (_ & _ & ->), Ev as (_ & _ & ->).
    unfold MultiHeadAttentionBlock_forward, getattr, lookup_name.
    repeat match goal with
    | |- context [?m !! ?key] =>
        lazymatch m with
        | insert _ _ _ =>
            let r := fresh in
            evar (r : option (value A));
            assert (m !! key = r) as -> by (subst r; lookup_attr); subst r
        end
    end.
    simpl. unfold call. simpl.
    destruct (linear_forward_shape (init "w_q" [Z.to_nat d_model; Z.to_nat d_model])
                (init "w_q" [Z.to_nat d_model]) (Z.to_nat d_model) _ _ _ x Hx)
      as (query & -> & Hsq).
    destruct (linear_forward_shape (init "w_k" [Z.to_nat d_model; Z.to_nat d_model])
                (init "w_k" [Z.to_nat d_model]) (Z.to_nat d_model) _ _ _ x Hx)
      as (key & -> & Hsk).
    destruct (linear_forward_shape (init "w_v" [Z.to_nat d_model; Z.to_nat d_model])
                (init "w_v" [Z.to_nat d_model]) (Z.to_nat d_model) _ _ _ x Hx)
      as (val & -> & Hsv).
    simpl.
    rewrite (shape_at_0 query _ _ Hsq), (shape_at_1 query _ _ _ Hsq). simpl.
    destruct (G !! "d_k") as [d_k|]; simpl; eauto. }
  split; [by destruct (MultiHeadAttentionBlock_init_inv _ _ _ _ _ Hi) as (_ & ? & _)|].
  split; [exact Hf|].
  destruct Hf as (e & -> & _). simpl. discriminate.
Qed.

(** C6. ResidualConnection.forward(x, sublayer) returns
    x + dropout(sublayer(norm(x))), the normalisation coming before the
    sublayer, for every input, every sublayer and either mode of the
    dropout module; with a dropout rate that compares equal to 0 and the
    identity sublayer the result is x + norm(x). *)
Theorem ResidualConnection_forward_prenorm keep (p : A) (training : bool) self norm x
    (sublayer : tensor A → result (tensor A)) :
  self !! "dropout" = Some (VDropout p training) →
  self !! "norm" = Some (VObj "LayerNormalization" norm) →
  ResidualConnection_forward keep self x sublayer =
    (normed ← LayerNormalization_forward norm x;
     y ← sublayer normed;
     tadd x (dropout_forward keep p training y)) ∧
  (feqb p fzero = true →
   ResidualConnection_forward keep self x Ok =
     (normed ← LayerNormalization_forward norm x; tadd x normed)).
Proof.
  intros Hd Hn. unfold ResidualConnection_forward, getattr. rewrite Hd, Hn.
  simpl. unfold call. simpl. split.
  - destruct (LayerNormalization_forward norm x) as [n|]; simpl; [|done].
    destruct (sublayer n); simpl; done.
  - intros Hp. destruct (LayerNormalization_forward norm x) as [n|]; simpl; [|done].
    unfold dropout_forward. rewrite Hp. done.
Qed.

(** C7. FeedForwardBlock.forward returns
    linear_2(dropout(relu(linear_1(x)))).  The constructor stores the two
    projections as [Linear_1] and [Linear_2]; forward reads [linear_2] and
    [linear_1], so on every constructed instance and every input it raises
    AttributeError before any projection is applied. *)
Theorem FeedForwardBlock_forward_fails init d_model d_ff (p : A) self keep x :
  FeedForwardBlock_init init d_model d_ff p = Ok self →
  FeedForwardBlock_forward keep self x = Err (AttributeError "linear_2").
Proof.
  intros (l1 & l2 & d & ->)%FeedForwardBlock_init_attrs.
  unfold FeedForwardBlock_forward, getattr.
  assert ((<["Linear_2":=l2]> (<["dropout":=d]> (<["Linear_1":=l1]> ∅))
            : gmap string (value A)) !! "linear_2" = None) as -> by lookup_attr.
  done.
Qed.

(** C8. PositionalEncoding.forward returns dropout(x + table[0:seq_len]).
    The constructor stores the dropout rate itself, a float, in
    [self.dropout]; on any instance holding that float, forward raises
    for every input, whatever its length. *)
Theorem PositionalEncoding_forward_fails keep self x (p : A) :
  is_Err (PositionalEncoding_forward keep (<["dropout" := VFloat p]> self) x).
Proof.
  unfold PositionalEncoding_forward, is_Err, getattr.
  rewrite (lookup_insert_eq self "dropout").
  destruct (_ !! "pe") as [pe|]; simpl; eauto.
  destruct (as_tensor "pe" pe) as [t|]; simpl; eauto.
  destruct (shape_at x 1) as [n|]; simpl; eauto.
  destruct (slice_dim1 t n) as [sl|]; simpl; eauto.
  destruct (tadd x sl) as [y|]; simpl; eauto.
Qed.

(** C9. A MultiHeadAttentionBlock whose d_model is not divisible by h
    cannot be constructed: the constructor raises.  Every constructed
    instance has h ≠ 0, d_model % h == 0 and d_k = d_model // h, and
    forward leaves d_k as the constructor set it. *)
Theorem MultiHeadAttentionBlock_init_divisible init (d_model h : Z) (p : A) :
  (h = 0%Z ∨ (d_model mod h)%Z ≠ 0%Z →
     is_Err (MultiHeadAttentionBlock_init init d_model h p)) ∧
  (∀ self, MultiHeadAttentionBlock_init init d_model h p = Ok self →
     h ≠ 0%Z ∧ (d_model mod h = 0)%Z ∧
     self !! "d_k" = Some (VInt (d_model / h)) ∧
     ∀ G keep q k v mask,
       (MultiHeadAttentionBlock_forward G keep self q k v mask).2 !! "d_k"
         = Some (VInt (d_model / h))).
Proof.
  split.
  - intros Hbad. destruct (MultiHeadAttentionBlock_init init d_model h p) as [self|e] eqn:E.
    + apply MultiHeadAttentionBlock_init_inv in E as (? & ? & _). tauto.
    + by exists e.
  - intros self Hi.
    destruct (MultiHeadAttentionBlock_init_inv _ _ _ _ _ Hi)
      as (Hh & Hm & _ & wq & wk & wv & wo & _ & _ & _ & _ & ->).
    assert (Hdk : (<["dropout":=VDropout p true]> (<["w_o":=wo]> (<["w_v":=wv]>
           (<["w_k":=wk]> (<["w_q":=wq]> (<["d_k":=VInt (d_model / h)]>
           (<["h":=VInt h]> (<["d_model":=VInt d_model]> ∅)))))))
             : gmap string (value A)) !! "d_k"
           = Some (VInt (d_model / h))) by lookup_attr.
    repeat split; try done.
    intros. by rewrite MultiHeadAttentionBlock_forward_frame.
Qed.

(** C10. Every call of forward stores the attention probabilities in
    [self.attention_scores].  No call gets as far as the assignment of
    line 254: for every instance, globals and inputs forward raises and
    the instance, [attention_scores] included, is what it was before. *)
Theorem MultiHeadAttentionBlock_forward_never_stores G keep self q k v (mask : value A) :
  is_Err (MultiHeadAttentionBlock_forward G keep self q k v mask).1 ∧
  (MultiHeadAttentionBlock_forward G keep self q k v mask).2 = self ∧
  (MultiHeadAttentionBlock_forward G keep self q k v mask).2 !! "attention_scores"
    = self !! "attention_scores".
Proof.
  destruct (MultiHeadAttentionBlock_forward_aborts G keep self q k v mask) as [e ->].
  simpl. split; [by exists e | done].
Qed.

End NotebookLemmas.

(** * The claims at concrete inputs over the reals *)

Lemma Q2R_inject_Z (z : Z) : Q2R (inject_Z z) = IZR z.
Proof. unfold Q2R. simpl. rewrite Rinv_1. apply Rmult_1_r. Qed.

Lemma Rltb_false (x y : R) : (y <= x)%R → Rltb x y = false.
Proof. intros Hle. unfold Rltb. destruct (Rlt_dec x y); [lra|done]. Qed.

Lemma Reqb_refl (x : R) : Reqb x x = true.
Proof. unfold Reqb. by destruct (Req_dec_T x x). Qed.

Lemma nn_Dropout_R0 : nn_Dropout 0%R = Ok (VDropout 0%R true).
Proof.
  unfold nn_Dropout, fzero, fone. simpl.
  change 0%Q with (inject_Z 0). change 1%Q with (inject_Z 1). rewrite !Q2R_inject_Z.
  rewrite !Rltb_false by lra. done.
Qed.

Lemma MultiHeadAttentionBlock_init_R :
  is_Ok (MultiHeadAttentionBlock_init sample_init 4 2 0%R).
Proof.
  unfold MultiHeadAttentionBlock_init. cbn [py_mod py_floordiv py_assert mbind result_bind].
  simpl. rewrite nn_Dropout_R0. simpl. eexists. reflexivity.
Qed.

Lemma FeedForwardBlock_init_R : is_Ok (FeedForwardBlock_init sample_init 4 8 0%R).
Proof.
  unfold FeedForwardBlock_init. simpl. rewrite nn_Dropout_R0. simpl. eexists. reflexivity.
Qed.

Lemma ResidualConnection_init_R : is_Ok (ResidualConnection_init 0%R).
Proof.
  unfold ResidualConnection_init. rewrite nn_Dropout_R0. simpl. eexists. reflexivity.
Qed.

(** 10000^(1/16), the scale of the second column pair when d_model = 32,
    lies strictly between 1 and 3. *)
Lemma scale_bounds : (1 < exp (2 * (ln 10000 / 32)) < 3)%R.
Proof.
  assert (Hln : (0 < ln 10000)%R).
  { rewrite <- ln_1. apply ln_increasing; lra. }
  split.
  - rewrite <- exp_0. apply exp_increasing. lra.
  - rewrite <- (exp_ln 3) by lra. apply exp_increasing.
    assert (H16 : (ln 10000 < 16 * ln 3)%R).
    { replace (16 * ln 3)%R with (ln (3 ^ 16)).
      - apply ln_increasing; lra.
      - rewrite ln_pow by lra. simpl. lra. }
    lra.
Qed.

(** The table of lines 83-91 multiplies the position by 10000^(2i/d_model)
    where the documented formula divides by it: with d_model = 32 the
    entry at position 1, column 3 is not cos(1 / 10000^(2/32)). *)
Lemma PositionalEncoding_table_sign_slip :
  ∃ pe, PositionalEncoding_table (A:=R) 32 2 = Ok pe ∧
    get pe [1; 3] ≠ cos (1 / Rpower 10000 (2 * 1 / 32)).
Proof.
  destruct (PositionalEncoding_table_entries (A:=R) 16 2) as (pe & Hpe & _ & Hg); [lia|].
  exists pe. split; [exact Hpe|].
  destruct (Hg 1 1) as [_ Hc]; [lia..|].
  change (2 * 1 + 1) with 3 in Hc. rewrite Hc. clear Hc Hg Hpe.
  unfold pe_angle, of_Z. simpl fcos. simpl fmul. simpl fexp. simpl fdiv. simpl flog. simpl of_Q.
  rewrite !Q2R_inject_Z.
  change 10000%Q with (inject_Z 10000). rewrite Q2R_inject_Z.
  change (Z.of_nat 1 * 1)%Z with 1%Z. change (Z.of_nat 1 * 2)%Z with 2%Z.
  change (Z.of_nat (2 * 16)) with 32%Z. change (Z.of_nat 32) with 32%Z.
  assert (Hp : Rpower 10000 (2 * 1 / 32) = exp (2 * (ln 10000 / 32))).
  { unfold Rpower. f_equal. lra. }
  rewrite Hp. pose proof scale_bounds as [Hlo Hhi].
  set (c := exp (2 * (ln 10000 / 32))) in *.
  assert (Hpi : (3 < PI)%R) by (pose proof PI2_3_2; lra).
  assert (Hinv : (0 < 1 / c < 1)%R).
  { split; [apply Rdiv_lt_0_compat; lra|].
    apply (Rmult_lt_reg_r c); [lra|]. unfold Rdiv. rewrite Rmult_assoc, Rinv_l by lra. lra. }
  apply Rlt_not_eq. rewrite Rmult_1_l.
  apply cos_decreasing_1; lra.
Qed.

(** The constructor succeeds on d_model = 4, h = 2, and forward on inputs
    of shape (1, 1, 4) stops on the name [d_k]. *)
Lemma MultiHeadAttentionBlock_forward_name_error_witness :
  ∃ self, MultiHeadAttentionBlock_init sample_init 4 2 0%R = Ok self ∧
    MultiHeadAttentionBlock_forward notebook_globals sample_keep self
      sample_x sample_x sample_x VNone = (Err (NameError "d_k"), self).
Proof.
  destruct MultiHeadAttentionBlock_init_R as [self Hs]. exists self. split; [exact Hs|].
  apply (MultiHeadAttentionBlock_forward_name_error sample_init 4 2 0%R self sample_keep
           sample_x sample_x sample_x VNone 1 1 1 1 Hs); reflexivity.
Defined.

(** A freshly constructed LayerNormalization on a (1, 1, 4) tensor of ones. *)
Lemma LayerNormalization_forward_formula_witness :
  ∃ self y, LayerNormalization_init LayerNormalization_eps = Ok self ∧
    LayerNormalization_forward self sample_x = Ok y ∧ shape y = [1; 1; 4] ∧
    get y [0; 0; 2] =
      fadd (fdiv (fmul fone (fsub 1%R (avg [1; 1; 1; 1]%R)))
                 (fadd (sample_std [1; 1; 1; 1]%R) LayerNormalization_eps))
           fzero.
Proof.
  destruct (LayerNormalization_init_attrs (A:=R) LayerNormalization_eps)
    as (self & Hi & He & Ha & Hb).
  destruct (LayerNormalization_forward_formula self sample_x _ _ _ Ha Hb He eq_refl eq_refl)
    as (y & Hy & Hs & Hg); [discriminate|].
  exists self, y. split; [exact Hi|]. split; [exact Hy|]. split; [exact Hs|].
  rewrite (Hg [0; 0; 2]) by (repeat constructor; lia).
  reflexivity.
Defined.

(** d_model = 4 and h = 2 on a (1, 1, 4) tensor, in the notebook as it
    stands: the split raises on [d_k] and the tensor does not come back. *)
Lemma MultiHeadAttentionBlock_forward_no_round_trip_witness :
  ∃ self, MultiHeadAttentionBlock_init sample_init 4 2 0%R = Ok self ∧
    MultiHeadAttentionBlock_forward notebook_globals sample_keep self
      sample_x sample_x sample_x VNone = (Err (NameError "d_k"), self) ∧
    (MultiHeadAttentionBlock_forward notebook_globals sample_keep self
       sample_x sample_x sample_x VNone).1 ≠ Ok sample_x.
Proof.
  destruct MultiHeadAttentionBlock_init_R as [self Hs]. exists self. split; [exact Hs|].
  destruct (MultiHeadAttentionBlock_forward_no_round_trip sample_init 4 2 0%R self
              notebook_globals sample_keep sample_x VNone 1 1 Hs eq_refl)
    as (_ & (e & He & Hm) & Hne).
  change (e = NameError "d_k") in Hm. subst e. split; [exact He | exact Hne].
Defined.

(** A constructed instance with dropout rate 0 and the identity sublayer:
    x + norm(x). *)
Lemma ResidualConnection_forward_prenorm_witness :
  ∃ self norm, ResidualConnection_init 0%R = Ok self ∧
    LayerNormalization_init LayerNormalization_eps = Ok norm ∧
    ResidualConnection_forward sample_keep self sample_x Ok =
      (normed ← LayerNormalization_forward norm sample_x; tadd sample_x normed).
Proof.
  destruct ResidualConnection_init_R as [self Hs].
  destruct (ResidualConnection_init_attrs 0%R self Hs) as (Hd & norm & Hi & Hn).
  exists self, norm. split; [exact Hs|]. split; [exact Hi|].
  apply (ResidualConnection_forward_prenorm sample_keep 0%R true self norm sample_x Ok Hd Hn).
  unfold fzero. simpl. change 0%Q with (inject_Z 0). rewrite Q2R_inject_Z.
  apply Reqb_refl.
Defined.

(** A feed-forward block with d_model = 4 and d_ff = 8 is constructed,
    and its forward raises on [linear_2]. *)
Lemma FeedForwardBlock_forward_fails_witness :
  ∃ self, FeedForwardBlock_init sample_init 4 8 0%R = Ok self ∧
    FeedForwardBlock_forward sample_keep self sample_x = Err (AttributeError "linear_2").
Proof.
  destruct FeedForwardBlock_init_R as [self Hs]. exists self. split; [exact Hs|].
  exact (FeedForwardBlock_forward_fails sample_init 4 8 0%R self sample_keep sample_x Hs).
Defined.

(** d_model = 4 with h = 3 is refused; with h = 2 it is built and d_k = 2. *)
Lemma MultiHeadAttentionBlock_init_divisible_witness :
  is_Err (MultiHeadAttentionBlock_init sample_init 4 3 0%R) ∧
  ∃ self, MultiHeadAttentionBlock_init sample_init 4 2 0%R = Ok self ∧
    self !! "d_k" = Some (VInt 2).
Proof.
  destruct (MultiHeadAttentionBlock_init_divisible sample_init 4 3 0%R) as [Hbad _].
  destruct (MultiHeadAttentionBlock_init_divisible sample_init 4 2 0%R) as [_ Hgood].
  split; [apply Hbad; right; discriminate|].
  destruct MultiHeadAttentionBlock_init_R as [self Hs]. exists self. split; [exact Hs|].
  by destruct (Hgood self Hs) as (_ & _ & Hd & _).
Defined.

(** * Further properties of the notebook's code *)

(** ** More of the tensor model *)

Section MoreTensorLemmas.

Lemma elem_of_indices s idx : in_range s idx → idx ∈ indices s.
Proof. intros Hr. apply list_elem_of_lookup. eexists. by apply lookup_indices. Qed.

Lemma indices_in_range s idx : idx ∈ indices s → in_range s idx.
Proof.
  revert idx. induction s as [|d r IH]; simpl; intros idx Hin.
  - apply list_elem_of_singleton in Hin as ->. constructor.
  - apply list_elem_of_join in Hin as (l & Hidx & Hl).
    apply list_elem_of_fmap in Hl as (i & -> & Hi).
    apply list_elem_of_fmap in Hidx as (idx' & -> & Hidx').
    apply elem_of_seq in Hi. constructor; [lia|]. by apply IH.
Qed.

Lemma broadcast_shapes_refl s : broadcast_shapes s s = Ok s.
Proof. unfold broadcast_shapes. rewrite bshape_rev_refl. simpl. by rewrite reverse_involutive. Qed.

Lemma in_range_app s s' idx idx' :
  in_range s idx → in_range s' idx' → in_range (s ++ s') (idx ++ idx').
Proof. apply Forall2_app. Qed.

Lemma in_range_snoc2 s a b pre i j :
  in_range s pre → i < a → j < b → in_range (s ++ [a; b]) (pre ++ [i; j]).
Proof. intros. apply in_range_app; [done|]. by apply in_range_2. Qed.

Lemma snoc2 {X} (l : list X) a b : l ++ [a; b] = (l ++ [a]) ++ [b].
Proof. by rewrite <- app_assoc. Qed.

Lemma flat_index_app st st' idx idx' :
  length st = length idx →
  flat_index (st ++ st') (idx ++ idx') = flat_index st idx + flat_index st' idx'.
Proof.
  revert idx. induction st as [|s st IH]; intros [|i idx] Hl; simpl in *; try done.
  rewrite IH by lia. lia.
Qed.

Lemma list_swap_last2 (l : list nat) x y :
  list_swap (length l) (S (length l)) (l ++ [x; y]) = l ++ [y; x].
Proof.
  unfold list_swap.
  rewrite (lookup_app_r l), Nat.sub_diag by lia.
  rewrite (lookup_app_r l) by lia.
  replace (S (length l) - length l) with 1 by lia. simpl.
  rewrite (insert_app_r_alt l) by lia.
  replace (S (length l) - length l) with 1 by lia. simpl.
  rewrite (insert_app_r_alt l) by lia. rewrite Nat.sub_diag. done.
Qed.

Lemma wrap_dim_minus2 n : wrap_dim (n + 2) (-2) = Ok n.
Proof.
  unfold wrap_dim. rewrite bool_decide_eq_true_2 by lia.
  rewrite bool_decide_eq_true_2 by lia. f_equal. lia.
Qed.

Lemma wrap_dim_minus1 n : wrap_dim (n + 2) (-1) = Ok (S n).
Proof.
  unfold wrap_dim. rewrite bool_decide_eq_true_2 by lia.
  rewrite bool_decide_eq_true_2 by lia. f_equal. lia.
Qed.

(** Swapping the last two dimensions swaps the last two indices. *)
Lemma transpose_last2 {X} (t : tensor X) bs a b :
  shape t = bs ++ [a; b] → length (strides t) = length (shape t) →
  ∃ t', transpose (-2) (-1) t = Ok t' ∧ shape t' = bs ++ [b; a] ∧
    ∀ d pre i j, length pre = length bs →
      tget d t' (pre ++ [j; i]) = tget d t (pre ++ [i; j]).
Proof.
  intros Hs Hl. rewrite Hs, length_app in Hl. simpl in Hl.
  assert (∃ st sa sb, strides t = st ++ [sa; sb] ∧ length st = length bs)
    as (st & sa & sb & Hst & Hlst).
  { exists (take (length bs) (strides t)).
    destruct (drop (length bs) (strides t)) as [|sa [|sb [|? ?]]] eqn:E;
      pose proof (f_equal length E) as E'; rewrite length_drop in E'; simpl in E'; try lia.
    exists sa, sb. split; [|rewrite length_take; lia].
    by rewrite <- E, take_drop. }
  unfold transpose, ndim. rewrite Hs, length_app. simpl length.
  rewrite wrap_dim_minus2, wrap_dim_minus1. cbn [mbind result_bind].
  eexists. split; [done|]. simpl. split; [apply list_swap_last2|].
  intros d pre i j Hp. unfold tget. simpl.
  rewrite Hst, <- Hlst, list_swap_last2.
  rewrite !flat_index_app by lia. simpl. do 2 f_equal. lia.
Qed.

Lemma shape_at_last {X} (t : tensor X) s n :
  shape t = s ++ [n] → shape_at t (-1) = Ok (Z.of_nat n).
Proof.
  intros Hs. unfold shape_at, ndim. rewrite Hs, length_app. simpl length.
  rewrite bool_decide_eq_true_2 by lia. rewrite bool_decide_eq_true_2 by lia.
  replace (Z.to_nat (-1 + Z.of_nat (length s + 1))) with (length s) by lia.
  by rewrite lookup_app_r, Nat.sub_diag by lia.
Qed.

Lemma expandable_same_length s target :
  length s = length target → expandable s target = true →
  Forall2 (λ d t, d = t ∨ d = 1) s target.
Proof.
  intros Hl. unfold expandable. rewrite andb_true_iff. intros [_ Hf].
  rewrite <- (reverse_involutive s), <- (reverse_involutive target).
  apply Forall2_reverse.
  assert (Hl' : length (reverse s) = length (reverse target)) by (by rewrite !length_reverse).
  revert Hf Hl'. generalize (reverse s) (reverse target).
  induction l as [|d l IH]; intros [|t l0]; simpl; try done.
  rewrite andb_true_iff, orb_true_iff, !Nat.eqb_eq. intros [Hd Hf] Hlen.
  constructor; [done|]. apply IH; [done|lia].
Qed.

Lemma zip_app_short {X Y} (l : list X) (k k' : list Y) :
  length l ≤ length k → zip l (k ++ k') = zip l k.
Proof.
  revert k. induction l as [|a l IH]; intros [|b k] Hl; simpl in *; try done; [lia|].
  rewrite IH by lia. done.
Qed.

(** The index a broadcast operand is read at lies inside its shape. *)
Lemma bidx_in_range s target idx :
  expandable s target = true → in_range target idx → in_range s (bidx s idx).
Proof.
  intros He Hr. pose proof He as He'. unfold expandable in He'.
  apply andb_true_iff in He' as [Hlen%bool_decide_eq_true_1 Hf].
  pose proof (in_range_length _ _ Hr) as Hli.
  unfold bidx.
  assert (Hs : Forall2 (λ d t, d = t ∨ d = 1) s (drop (length target - length s) target)).
  { apply expandable_same_length; [rewrite length_drop; lia|].
    unfold expandable. rewrite bool_decide_eq_true_2 by (rewrite length_drop; lia). simpl.
    rewrite <- (take_drop (length target - length s) target) in Hf at 1.
    rewrite reverse_app in Hf.
    rewrite zip_app_short in Hf by (rewrite !length_reverse, length_drop; lia).
    done. }
  assert (Hd : in_range (drop (length target - length s) target)
                 (drop (length target - length s) idx)).
  { unfold in_range in *. by apply Forall2_drop. }
  rewrite Hli.
  revert Hs Hd. generalize (drop (length target - length s) target)
    (drop (length target - length s) idx). clear.
  unfold in_range. intros t i Hs. revert i.
  induction Hs as [|d x s t Hd Hs IH]; intros i Hi; inv Hi; simpl; constructor.
  - destruct (d =? 1) eqn:E; [apply Nat.eqb_eq in E | apply Nat.eqb_neq in E]; lia.
  - by apply IH.
Qed.

End MoreTensorLemmas.

(** ** The classes on more inputs *)

Section NotebookExtras.
Context `{Scalar A}.
Implicit Types (self G : gmap string (value A)) (x : tensor A).

(** *** Operations the classes call *)

(** Batched matrix product of operands with the same leading sizes. *)
Lemma matmul_batched (a b : tensor A) bs n m p :
  shape a = bs ++ [n; m] → shape b = bs ++ [m; p] →
  ∃ r, matmul a b = Ok r ∧ shape r = bs ++ [n; p] ∧
    ∀ pre i j, in_range bs pre → i < n → j < p →
      get r (pre ++ [i; j]) =
        fsum ((λ c, fmul (get a (pre ++ [i; c])) (get b (pre ++ [c; j]))) <$> seq 0 m).
Proof.
  intros Ha Hb. unfold matmul.
  assert (La : length (shape a) = length bs + 2) by (rewrite Ha, length_app; done).
  assert (Lb : length (shape b) = length bs + 2) by (rewrite Hb, length_app; done).
  destruct (shape a) as [|a0 sa] eqn:Ea; [simpl in La; lia|].
  destruct (shape b) as [|b0 sb] eqn:Eb; [simpl in Lb; lia|].
  rewrite La, Lb.
  replace (length bs + 2 =? 1) with false by (symmetry; apply Nat.eqb_neq; lia).
  rewrite Ha, Hb. rewrite !length_app. simpl length.
  replace (length bs + 2 - 2) with (length bs) by lia.
  replace (length bs + 2 - 1) with (S (length bs)) by lia.
  rewrite !take_app_length.
  rewrite !(app_nth2 bs) by lia. rewrite Nat.sub_diag.
  replace (S (length bs) - length bs) with 1 by lia. simpl nth.
  rewrite Nat.eqb_refl, broadcast_shapes_refl. cbn [mbind result_bind].
  eexists. split; [done|]. split; [done|].
  intros pre i j Hp Hi Hj.
  pose proof (in_range_length _ _ Hp) as Hl.
  unfold get at 1. unfold reshape_fresh. simpl app.
  change (mkTensor ?s (contiguous_strides ?s) (offset (of_fun ?s' ?f)) (storage (of_fun ?s' ?f)))
    with (of_fun s f).
  rewrite tget_of_fun by (by apply in_range_snoc2).
  rewrite <- Hl, take_app_length.
  rewrite !(app_nth2 pre) by lia. rewrite Nat.sub_diag.
  replace (S (length pre) - length pre) with 1 by lia. simpl nth.
  by rewrite (bidx_self _ _ Hp).
Qed.

Lemma matmul_mismatch (a b : tensor A) bs bs' n m m' p :
  shape a = bs ++ [n; m] → shape b = bs' ++ [m'; p] → m ≠ m' →
  matmul a b = Err (RuntimeError "mat1 and mat2 shapes cannot be multiplied").
Proof.
  intros Ha Hb Hm. unfold matmul.
  assert (La : length (shape a) = length bs + 2) by (rewrite Ha, length_app; done).
  assert (Lb : length (shape b) = length bs' + 2) by (rewrite Hb, length_app; done).
  destruct (shape a) as [|a0 sa] eqn:Ea; [simpl in La; lia|].
  destruct (shape b) as [|b0 sb] eqn:Eb; [simpl in Lb; lia|].
  rewrite La, Lb.
  replace (length bs + 2 =? 1) with false by (symmetry; apply Nat.eqb_neq; lia).
  replace (length bs' + 2 =? 1) with false by (symmetry; apply Nat.eqb_neq; lia).
  rewrite Ha, Hb. rewrite !length_app. simpl length.
  replace (length bs + 2 - 1) with (S (length bs)) by lia.
  replace (length bs' + 2 - 2) with (length bs') by lia.
  rewrite !(app_nth2 bs), !(app_nth2 bs') by lia. rewrite Nat.sub_diag.
  replace (S (length bs) - length bs) with 1 by lia. simpl nth.
  by replace (m =? m') with false by (symmetry; apply Nat.eqb_neq; lia).
Qed.

(** Softmax along the last dimension. *)
Lemma softmax_get (t : tensor A) s n pre j :
  shape t = s ++ [n] → in_range s pre → j < n →
  get (softmax t) (pre ++ [j]) =
    let v := (λ j', get t (pre ++ [j'])) <$> seq 0 n in
    fdiv (fexp (fsub (get t (pre ++ [j])) (fmaximum v)))
         (fsum ((λ a, fexp (fsub a (fmaximum v))) <$> v)).
Proof.
  intros Hs Hp Hj. unfold softmax, get at 1.
  rewrite tget_of_fun by (rewrite Hs; by apply in_range_snoc).
  by rewrite removelast_snoc, (row_snoc _ _ _ _ _ Hs).
Qed.

Lemma dropout_forward_shape keep (p : A) training (t : tensor A) :
  shape (dropout_forward keep p training t) = shape t.
Proof.
  unfold dropout_forward.
  destruct (_ || _); [done|]. by destruct (feqb p fone).
Qed.

Lemma dropout_forward_off keep (p : A) training (t : tensor A) :
  feqb p fzero = true ∨ training = false → dropout_forward keep p training t = t.
Proof. unfold dropout_forward. intros [->| ->]; [done|]. by rewrite orb_true_r. Qed.

Lemma nn_Dropout_Ok (p : A) :
  is_Ok (nn_Dropout p) ↔ fltb p fzero = false ∧ fltb fone p = false.
Proof.
  unfold nn_Dropout, is_Ok. destruct (fltb p fzero), (fltb fone p); simpl;
    split; try (intros [? ?]; done); try (intros [? ?]; discriminate); eauto.
Qed.

Lemma nn_Dropout_eq (p : A) :
  fltb p fzero = false → fltb fone p = false → nn_Dropout p = Ok (VDropout p true).
Proof. intros H1 H2. unfold nn_Dropout. by rewrite H1, H2. Qed.

Lemma nn_Linear_eq init (i o : Z) :
  (0 ≤ i)%Z → (0 ≤ o)%Z →
  nn_Linear (A:=A) init i o =
    Ok (VLinear (of_fun [Z.to_nat o; Z.to_nat i] (init [Z.to_nat o; Z.to_nat i]))
                (of_fun [Z.to_nat o] (init [Z.to_nat o]))).
Proof. intros. unfold nn_Linear. by rewrite bool_decide_eq_false_2 by lia. Qed.

(** Elementwise reading of LayerNormalization.forward on an instance with
    one-element alpha and bias. *)
Lemma LayerNormalization_forward_get self x (alpha bias : tensor A) (eps : A) :
  self !! "alpha" = Some (VTensor alpha) →
  self !! "bias" = Some (VTensor bias) →
  self !! "eps" = Some (VFloat eps) →
  shape alpha = [1] → shape bias = [1] →
  shape x ≠ [] →
  ∃ y, LayerNormalization_forward self x = Ok y ∧ shape y = shape x ∧
    ∀ idx, in_range (shape x) idx →
      get y idx =
        fadd (fdiv (fmul (get alpha [0]) (fsub (get x idx) (avg (row fzero x (removelast idx)))))
                   (fadd (sample_std (row fzero x (removelast idx))) eps))
             (get bias [0]).
Proof.
  intros Ha Hb He Hsa Hsb Hx.
  destruct (exists_last Hx) as (s & n & Hs).
  unfold LayerNormalization_forward, getattr. rewrite Ha, Hb, He. simpl.
  unfold mean_keepdim, std_keepdim.
  rewrite !(reduce_last_snoc _ _ x s n Hs).
  unfold tsub, tmul, tdiv, tadd, tmap2, tmap. simpl.
  rewrite Hsa, Hsb, Hs.
  rewrite broadcast_shapes_keepdim. simpl.
  rewrite broadcast_shapes_one_l. simpl.
  rewrite broadcast_shapes_keepdim. simpl.
  rewrite broadcast_shapes_one_r. simpl.
  eexists. split; [done|]. split; [done|].
  intros idx Hr. simpl.
  destruct (in_range_snoc_inv _ _ _ Hr) as (pre & i & -> & Hpre & Hi).
  pose proof (in_range_length _ _ Hpre) as Hlen.
  assert (Hk : in_range (s ++ [1]) (pre ++ [0])) by (apply in_range_snoc; [done|lia]).
  unfold get.
  repeat first
    [ rewrite (bidx_self _ _ Hr) | rewrite bidx_one
    | rewrite (bidx_keepdim _ _ _ Hlen) | rewrite (bidx_self _ _ Hpre)
    | rewrite tget_of_fun by done | rewrite removelast_snoc ].
  done.
Qed.

(** The static method [attention] when a global [mask] is bound to None
    or to a tensor that expands to the shape of the scores: the tensor
    [scores] is what softmax is applied to. *)
Lemma MultiHeadAttentionBlock_attention_spec G keep (mask dropout : value A)
    (query key value : tensor A) (p : A) (training : bool) bs s t dk dv :
  G !! "mask" = Some mask →
  (mask = VNone ∨ ∃ m, mask = VTensor m ∧ expandable (shape m) (bs ++ [s; t]) = true) →
  (dropout = VNone ∨ dropout = VDropout p training) →
  shape query = bs ++ [s; dk] → shape key = bs ++ [t; dk] → shape value = bs ++ [t; dv] →
  length (strides key) = length (shape key) →
  ∃ scores probs out,
    MultiHeadAttentionBlock_attention G keep
      [VTensor query; VTensor key; VTensor value; dropout] = Ok (out, probs) ∧
    shape scores = bs ++ [s; t] ∧ shape probs = bs ++ [s; t] ∧ shape out = bs ++ [s; dv] ∧
    (∀ pre i j, in_range bs pre → i < s → j < t →
       get scores (pre ++ [i; j]) =
         let a := fdiv (fsum ((λ c, fmul (get query (pre ++ [i; c])) (get key (pre ++ [j; c])))
                                <$> seq 0 dk))
                       (fsqrt (of_Z (Z.of_nat dk))) in
         match mask with
         | VTensor m =>
             if feqb (get m (bidx (shape m) (pre ++ [i; j]))) fzero
             then of_Q (-1000000000) else a
         | _ => a
         end) ∧
    (dropout = VNone ∨ training = false ∨ feqb p fzero = true →
     ∀ pre i j, in_range bs pre → i < s → j < t →
       get probs (pre ++ [i; j]) =
         let v := (λ j', get scores (pre ++ [i; j'])) <$> seq 0 t in
         fdiv (fexp (fsub (get scores (pre ++ [i; j])) (fmaximum v)))
              (fsum ((λ a, fexp (fsub a (fmaximum v))) <$> v))) ∧
    (∀ pre i c, in_range bs pre → i < s → c < dv →
       get out (pre ++ [i; c]) =
         fsum ((λ j, fmul (get probs (pre ++ [i; j])) (get value (pre ++ [j; c])))
                 <$> seq 0 t)).
Proof.
  intros HG Hmask Hdrop Hq Hk Hv Hl.
  unfold MultiHeadAttentionBlock_attention. cbn [as_tensor as_operand mbind result_bind].
  rewrite (shape_at_last query (bs ++ [s]) dk) by (by rewrite <- snoc2).
  cbn [mbind result_bind].
  destruct (transpose_last2 key bs t dk Hk Hl) as (kt & -> & Hskt & Hgkt).
  cbn [mbind result_bind].
  destruct (matmul_batched query kt bs s dk t Hq Hskt) as (qk & -> & Hsqk & Hgqk).
  cbn [mbind result_bind]. unfold lookup_name. rewrite HG. cbn [mbind result_bind].
  set (scaled := tmap fzero (λ a, fdiv a (fsqrt (of_Z (Z.of_nat dk)))) qk).
  assert (Hss : shape scaled = bs ++ [s; t]) by done.
  assert (Hgs : ∀ pre i j, in_range bs pre → i < s → j < t →
            get scaled (pre ++ [i; j]) =
              fdiv (fsum ((λ c, fmul (get query (pre ++ [i; c])) (get key (pre ++ [j; c])))
                            <$> seq 0 dk)) (fsqrt (of_Z (Z.of_nat dk)))).
  { intros pre i j Hp Hi Hj. unfold scaled.
    rewrite get_tmap by (rewrite Hsqk; by apply in_range_snoc2).
    rewrite Hgqk by done. do 2 f_equal.
    apply list_fmap_ext. intros _ c _. f_equal. unfold get.
    apply Hgkt. by apply in_range_length. }
  clearbody scaled.
  assert (∃ scores,
    match mask with
    | VNone => Ok scaled
    | VTensor m => masked_fill_ scaled (eq_scalar m fzero) (of_Q (-1000000000))
    | _ => Err (TypeError "masked_fill_(): argument 'mask' must be Tensor")
    end = Ok scores ∧ shape scores = bs ++ [s; t] ∧
    ∀ pre i j, in_range bs pre → i < s → j < t →
      get scores (pre ++ [i; j]) =
        match mask with
        | VTensor m =>
            if feqb (get m (bidx (shape m) (pre ++ [i; j]))) fzero
            then of_Q (-1000000000) else get scaled (pre ++ [i; j])
        | _ => get scaled (pre ++ [i; j])
        end) as (scores & -> & Hssc & Hgsc).
  { destruct Hmask as [->|(m & -> & He)]; [by exists scaled|].
    unfold masked_fill_. change (shape (eq_scalar m fzero)) with (shape m).
    rewrite Hss, He.
    eexists. split; [done|]. split; [done|].
    intros pre i j Hp Hi Hj. unfold get at 1.
    rewrite tget_of_fun by (by apply in_range_snoc2).
    unfold eq_scalar. rewrite tget_tmap; [done|].
    eapply bidx_in_range; [exact He|by apply in_range_snoc2]. }
  cbn [mbind result_bind].
  set (sm := softmax scores).
  assert (Hssm : shape sm = bs ++ [s; t]) by done.
  assert (Hgsm : ∀ pre i j, in_range bs pre → i < s → j < t →
            get sm (pre ++ [i; j]) =
              let v := (λ j', get scores (pre ++ [i; j'])) <$> seq 0 t in
              fdiv (fexp (fsub (get scores (pre ++ [i; j])) (fmaximum v)))
                   (fsum ((λ a, fexp (fsub a (fmaximum v))) <$> v))).
  { intros pre i j Hp Hi Hj. unfold sm.
    assert (Hrow : (λ j', get scores ((pre ++ [i]) ++ [j'])) <$> seq 0 t =
                   (λ j', get scores (pre ++ [i; j'])) <$> seq 0 t).
    { apply list_fmap_ext. intros _ j' _. by rewrite <- snoc2. }
    rewrite (snoc2 pre i j).
    rewrite (softmax_get scores (bs ++ [s]) t (pre ++ [i]) j)
      by (by rewrite <- ?snoc2; try apply in_range_snoc).
    cbn zeta. by rewrite Hrow. }
  clearbody sm.
  assert (∃ probs,
    match dropout with
    | VNone => Ok sm
    | _ => call keep dropout sm
    end = Ok probs ∧ shape probs = bs ++ [s; t] ∧
    (dropout = VNone ∨ training = false ∨ feqb p fzero = true → probs = sm))
    as (probs & -> & Hsp & Hgp).
  { destruct Hdrop as [->| ->]; [by exists sm; eauto|].
    unfold call, call_module. eexists. split; [done|].
    split; [by rewrite dropout_forward_shape|].
    intros [?|[->|Hp]]; [done| |]; apply dropout_forward_off; eauto. }
  cbn [mbind result_bind].
  destruct (matmul_batched probs value bs s t dv Hsp Hv) as (out & -> & Hso & Hgo).
  cbn [mbind result_bind].
  exists scores, probs, out. split_and!; try done.
  - intros pre i j Hp Hi Hj. rewrite Hgsc by done. cbn zeta.
    rewrite Hgs by done. done.
  - intros Hoff pre i j Hp Hi Hj. rewrite (Hgp Hoff). by apply Hgsm.
Qed.

(** The table of lines 83-91 for an odd d_model = 2m+1 > 1: the cosine
    columns do not fit. *)
Lemma PositionalEncoding_init_odd_columns (m len : nat) (dropout : A) :
  0 < m →
  PositionalEncoding_init (Z.of_nat (2 * m + 1)) (Z.of_nat len) dropout =
    Err (RuntimeError "The expanded size of the tensor must match the existing size").
Proof.
  intros Hm. unfold PositionalEncoding_init, PositionalEncoding_table, zeros.
  rewrite full_nonneg by (repeat constructor; lia).
  cbn [mbind result_bind fmap list_fmap]. rewrite !Nat2Z.id.
  destruct (arange_spec (Z.of_nat len) 1 len) as (pos0 & -> & Hs0 & Hst0 & Ho0 & Hg0);
    [lia | rewrite Z.div_1_r; lia |].
  cbn [mbind result_bind].
  destruct (unsqueeze_column pos0 len Hs0 Hst0 Ho0) as (position & -> & Hsp & Hgp).
  cbn [mbind result_bind].
  destruct (arange_spec (Z.of_nat (2 * m + 1)) 2 (m + 1)) as (ar & -> & Hsa & _ & _ & Hga);
    [lia | |].
  { replace (Z.of_nat (2 * m + 1) + 2 - 1)%Z with (0 + Z.of_nat (m + 1) * 2)%Z by lia.
    rewrite Z.div_add by lia. change (0 / 2)%Z with 0%Z. lia. }
  cbn [mbind result_bind].
  rewrite (bool_decide_eq_false_2 (Z.of_nat (2 * m + 1) = 0)%Z) by lia.
  cbn [mbind result_bind].
  set (div_term := tmap fzero fexp _).
  assert (Hsd : shape div_term = [m + 1]) by done.
  clearbody div_term.
  destruct (tmap2_spec fmul position div_term [len; m + 1]) as (a & Ha & Hsha & _).
  { rewrite Hsp, Hsd. apply broadcast_column_row. lia. }
  unfold tmul. rewrite Ha. cbn [mbind result_bind].
  destruct (setitem_cols_spec (of_fun [len; 2 * m + 1] (λ _, fzero)) (tmap fzero fsin a)
              0 2 len (2 * m + 1)) as (pe1 & -> & Hs1 & _); [done | |].
  { cbn [shape tmap of_fun]. rewrite Hsha.
    replace ((2 * m + 1 - 0 + 2 - 1) / 2) with (m + 1); [apply expandable_refl|].
    apply (Nat.div_unique _ _ _ 0); lia. }
  cbn [mbind result_bind].
  unfold setitem_cols. rewrite Hs1. cbn [shape tmap of_fun]. rewrite Hsha.
  replace ((2 * m + 1 - 1 + 2 - 1) / 2) with m.
  2:{ apply (Nat.div_unique _ _ _ 1); lia. }
  assert (expandable [len; m + 1] [len; m] = false) as ->; [|done].
  unfold expandable. cbn.
  destruct (m + 1 =? m) eqn:E1; [apply Nat.eqb_eq in E1; lia|].
  destruct (m + 1 =? 1) eqn:E2; [apply Nat.eqb_eq in E2; lia|].
  by rewrite andb_false_r.
Qed.

(** *** Section 1: InputEmbeddings *)

(** X1. The constructor of InputEmbeddings never returns: line 42 reads
    [nn.embedding], torch.nn has no attribute of that (lowercase) name,
    and the call raises AttributeError whatever d_model and vocab_size
    are. *)
Theorem InputEmbeddings_init_fails init (d_model vocab_size : Z) :
  InputEmbeddings_init (A:=A) init d_model vocab_size = Err (AttributeError "embedding").
Proof. reflexivity. Qed.

(** X2. On an instance that holds an Embedding of shape (vocab, dim)
    and an int d_model, forward of ids that all lie in [0, vocab): for
    0 <= d_model below the float range it returns a tensor of shape
    ids.shape + (dim,) whose vector at every index is the weight row of
    that id times sqrt(d_model); for a d_model outside the float range
    math.sqrt raises OverflowError, and for a negative one inside it
    ValueError. *)
Theorem InputEmbeddings_forward_lookup self (weight : tensor A) (ids : tensor Z)
    (attrs : gmap string (value A)) (d_model : Z) (vocab dim : nat) :
  self !! "embedding" = Some (VObj "Embedding" attrs) →
  attrs !! "weight" = Some (VTensor weight) →
  self !! "d_model" = Some (VInt d_model) →
  shape weight = [vocab; dim] →
  (∀ idx, in_range (shape ids) idx → (0 ≤ tget 0%Z ids idx < Z.of_nat vocab)%Z) →
  ((0 ≤ d_model < float_overflow_bound)%Z →
   ∃ y, InputEmbeddings_forward self ids = Ok y ∧
     shape y = shape ids ++ [dim] ∧
     ∀ idx j, in_range (shape ids) idx → j < dim →
       get y (idx ++ [j]) =
         fmul (get weight [Z.to_nat (tget 0%Z ids idx); j]) (fsqrt (of_Z d_model))) ∧
  ((float_overflow_bound ≤ Z.abs d_model)%Z →
   ∃ msg, InputEmbeddings_forward self ids = Err (OverflowError msg)) ∧
  ((- float_overflow_bound < d_model < 0)%Z →
   ∃ msg, InputEmbeddings_forward self ids = Err (ValueError msg)).
Proof.
  intros He Hw Hd Hs Hids.
  unfold InputEmbeddings_forward, call_ids, getattr. rewrite He, Hd.
  cbn [mbind result_bind]. change (String.eqb "Embedding" "Embedding") with true.
  cbv iota. rewrite Hw. cbn [mbind result_bind as_tensor].
  unfold embedding_lookup. rewrite Hs.
  assert (forallb (λ idx, bool_decide (0 ≤ tget 0%Z ids idx < Z.of_nat vocab)%Z)
            (indices (shape ids)) = true) as ->.
  { apply forallb_forall. intros idx Hin%list_elem_of_In%indices_in_range.
    apply bool_decide_eq_true_2. by apply Hids. }
  cbn [mbind result_bind math_sqrt]. split_and!.
  - intros Hpos.
    rewrite (bool_decide_eq_false_2 (float_overflow_bound ≤ Z.abs d_model)%Z) by lia.
    rewrite (bool_decide_eq_false_2 (d_model < 0)%Z) by lia.
    cbn [mbind result_bind].
    eexists. split; [done|]. split; [done|].
    intros idx j Hr Hj. unfold get.
    rewrite tget_tmap by (by apply in_range_snoc).
    rewrite tget_of_fun by (by apply in_range_snoc).
    by rewrite removelast_snoc, last_last.
  - intros Hbig.
    rewrite (bool_decide_eq_true_2 (float_overflow_bound ≤ Z.abs d_model)%Z) by lia.
    cbn [mbind result_bind]. by eexists.
  - intros Hneg.
    rewrite (bool_decide_eq_false_2 (float_overflow_bound ≤ Z.abs d_model)%Z) by lia.
    rewrite (bool_decide_eq_true_2 (d_model < 0)%Z) by lia.
    cbn [mbind result_bind]. by eexists.
Qed.

(** X3. On an instance that holds an Embedding of shape (vocab, dim),
    forward raises IndexError as soon as one id is negative or not below
    vocab; no partial result is returned. *)
Theorem InputEmbeddings_forward_out_of_range self (weight : tensor A) (ids : tensor Z)
    (attrs : gmap string (value A)) (vocab dim : nat) idx :
  self !! "embedding" = Some (VObj "Embedding" attrs) →
  attrs !! "weight" = Some (VTensor weight) →
  shape weight = [vocab; dim] →
  in_range (shape ids) idx →
  (tget 0%Z ids idx < 0 ∨ Z.of_nat vocab ≤ tget 0%Z ids idx)%Z →
  InputEmbeddings_forward self ids = Err IndexError.
Proof.
  intros He Hw Hs Hr Hbad.
  unfold InputEmbeddings_forward, call_ids, getattr. rewrite He.
  cbn [mbind result_bind]. change (String.eqb "Embedding" "Embedding") with true.
  cbv iota. rewrite Hw. cbn [mbind result_bind as_tensor].
  unfold embedding_lookup. rewrite Hs.
  assert (forallb (λ idx, bool_decide (0 ≤ tget 0%Z ids idx < Z.of_nat vocab)%Z)
            (indices (shape ids)) = false) as ->; [|done].
  apply not_true_is_false. intros Hall. rewrite forallb_forall in Hall.
  specialize (Hall idx). rewrite <- list_elem_of_In in Hall.
  specialize (Hall (elem_of_indices _ _ Hr)). apply bool_decide_eq_true_1 in Hall. lia.
Qed.

(** *** Section 2: PositionalEncoding *)

(** X4. For an even d_model > 0 and seq_len >= 0, lines 83-91 build a
    local table of shape (seq_len, d_model) whose columns 2i and 2i+1 at
    position pos hold the sine and the cosine of
    pos * exp(2i * (ln 10000 / d_model)). *)
Theorem PositionalEncoding_table_even (d_model seq_len : Z) :
  (0 < d_model)%Z → (d_model mod 2 = 0)%Z → (0 ≤ seq_len)%Z →
  ∃ pe, PositionalEncoding_table (A:=A) d_model seq_len = Ok pe ∧
    shape pe = [Z.to_nat seq_len; Z.to_nat d_model] ∧
    ∀ pos i, (Z.of_nat pos < seq_len)%Z → (2 * Z.of_nat i < d_model)%Z →
      get pe [pos; 2 * i] = fsin (pe_angle d_model pos i) ∧
      get pe [pos; 2 * i + 1] = fcos (pe_angle d_model pos i).
Proof.
  intros Hd Hm Hl.
  assert (Hdm : d_model = Z.of_nat (2 * Z.to_nat (d_model / 2))).
  { pose proof (Z_div_exact_full_2 d_model 2 ltac:(lia) Hm). lia. }
  assert (Hsl : seq_len = Z.of_nat (Z.to_nat seq_len)) by lia.
  destruct (PositionalEncoding_table_entries (Z.to_nat (d_model / 2)) (Z.to_nat seq_len))
    as (pe & Hpe & Hs & Hg); [lia|].
  rewrite <- Hdm, <- Hsl in Hpe. rewrite <- Hdm in Hg.
  exists pe. split; [done|]. split.
  - rewrite Hs. f_equal. f_equal. lia.
  - intros pos i Hp Hi. apply Hg; lia.
Qed.

(** X5. For an odd d_model >= 3 the constructor stops earlier than the
    misspelt unsqueeze: the assignment of the cosine columns on line 91
    raises RuntimeError, because position * div_term has (d_model+1)/2
    columns and only (d_model-1)/2 odd columns exist. *)
Theorem PositionalEncoding_init_odd (d_model seq_len : Z) (dropout : A) :
  (3 ≤ d_model)%Z → (d_model mod 2 = 1)%Z → (0 ≤ seq_len)%Z →
  ∃ msg, PositionalEncoding_init d_model seq_len dropout = Err (RuntimeError msg).
Proof.
  intros Hd Hm Hl.
  pose proof (Z.div_mod d_model 2 ltac:(lia)) as Hdiv.
  replace d_model with (Z.of_nat (2 * Z.to_nat (d_model / 2) + 1)) by lia.
  replace seq_len with (Z.of_nat (Z.to_nat seq_len)) by lia.
  eexists. apply PositionalEncoding_init_odd_columns. lia.
Qed.

(** X6. Degenerate sizes stop the constructor on its first lines: a
    negative seq_len or d_model raises RuntimeError in torch.zeros
    (line 83), and d_model = 0 raises ZeroDivisionError in the division
    by d_model on line 87. *)
Theorem PositionalEncoding_init_degenerate (d_model seq_len : Z) (dropout : A) :
  ((seq_len < 0 ∨ d_model < 0)%Z →
     ∃ msg, PositionalEncoding_init d_model seq_len dropout = Err (RuntimeError msg)) ∧
  ((0 ≤ seq_len)%Z → d_model = 0%Z →
     PositionalEncoding_init d_model seq_len dropout = Err ZeroDivisionError).
Proof.
  split.
  - intros Hneg. unfold PositionalEncoding_init, PositionalEncoding_table, zeros, full.
    rewrite (bool_decide_eq_true_2 (Exists _ _)); [by eexists|].
    rewrite !Exists_cons. lia.
  - intros Hl ->. unfold PositionalEncoding_init, PositionalEncoding_table, zeros.
    rewrite full_nonneg by (repeat constructor; lia).
    cbn [mbind result_bind].
    destruct (arange_spec seq_len 1 (Z.to_nat seq_len)) as (pos0 & -> & Hs0 & Hst0 & Ho0 & _);
      [lia | rewrite Z.div_1_r; lia |].
    cbn [mbind result_bind].
    destruct (unsqueeze_column pos0 _ Hs0 Hst0 Ho0) as (position & -> & _).
    cbn [mbind result_bind].
    destruct (arange_spec 0 2 0) as (ar & -> & _); [lia | done |].
    done.
Qed.

(** X8. On an instance that holds a table [pe] of shape
    (1, max_len, d_model) and a dropout module, forward of an input of
    shape (batch, seq_len, d_model) with seq_len <= max_len is the
    dropout of x + pe[:, :seq_len], position by position; an input longer
    than a table of at least 2 positions raises RuntimeError, the slice
    stopping at max_len. *)
Theorem PositionalEncoding_forward_with_module keep self x (pe : tensor A)
    (p : A) (training : bool) (batch seq_len max_len d_model : nat) :
  self !! "pe" = Some (VTensor pe) →
  self !! "dropout" = Some (VDropout p training) →
  shape pe = [1; max_len; d_model] →
  shape x = [batch; seq_len; d_model] →
  (seq_len ≤ max_len →
   ∃ y, PositionalEncoding_forward keep self x = Ok (dropout_forward keep p training y) ∧
     shape y = [batch; seq_len; d_model] ∧
     ∀ b s j, b < batch → s < seq_len → j < d_model →
       get y [b; s; j] = fadd (get x [b; s; j]) (get pe [0; s; j])) ∧
  (2 ≤ max_len < seq_len →
   ∃ msg, PositionalEncoding_forward keep self x = Err (RuntimeError msg)).
Proof.
  intros Hpe Hd Hspe Hsx.
  unfold PositionalEncoding_forward, getattr. rewrite Hpe, Hd.
  cbn [mbind result_bind as_tensor]. rewrite (shape_at_1 x _ _ _ Hsx).
  cbn [mbind result_bind]. unfold slice_dim1. rewrite Hspe.
  rewrite bool_decide_eq_false_2 by lia. rewrite Nat2Z.id.
  cbn [mbind result_bind]. split.
  - intros Hle. rewrite Nat.min_l by done.
    set (sl := mkTensor [1; seq_len; d_model] _ _ _).
    destruct (tmap2_spec fadd x sl [batch; seq_len; d_model]) as (y & Hy & Hsy & Hgy).
    { rewrite Hsx. unfold broadcast_shapes. cbn. rewrite !Nat.eqb_refl. cbn.
      destruct (batch =? 1) eqn:E; [apply Nat.eqb_eq in E as ->|]; done. }
    unfold tadd. rewrite Hy. cbn [mbind result_bind]. unfold call, call_module.
    exists y. split; [done|]. split; [done|].
    intros b s j Hb Hs Hj.
    rewrite Hgy by (by repeat constructor).
    rewrite Hsx, bidx_self by (by repeat constructor). f_equal.
    assert (bidx (shape sl) [b; s; j] = [0; s; j]) as ->; [|done].
    unfold bidx. cbn.
    destruct (seq_len =? 1) eqn:E1; [apply Nat.eqb_eq in E1|];
      (destruct (d_model =? 1) eqn:E2; [apply Nat.eqb_eq in E2|]);
      repeat f_equal; lia.
  - intros [Hlo Hhi]. rewrite Nat.min_r by lia.
    unfold tadd, tmap2. rewrite Hsx. cbn [shape].
    unfold broadcast_shapes. cbn. rewrite Nat.eqb_refl. cbn.
    destruct (seq_len =? max_len) eqn:E1; [apply Nat.eqb_eq in E1; lia|].
    destruct (seq_len =? 1) eqn:E2; [apply Nat.eqb_eq in E2; lia|].
    destruct (max_len =? 1) eqn:E3; [apply Nat.eqb_eq in E3; lia|].
    destruct (batch =? 1); cbn; eauto.
Qed.

(** *** Section 4: FeedForwardBlock *)

(** X11. FeedForwardBlock(d_model, d_ff, dropout) is constructed exactly
    when d_model and d_ff are not negative and the rate is neither below 0
    nor above 1; the instance then holds Linear_1 with a weight of shape
    (d_ff, d_model), Linear_2 with a weight of shape (d_model, d_ff) and a
    dropout module of that rate in training mode. *)
Theorem FeedForwardBlock_init_succeeds_iff init (d_model d_ff : Z) (p : A) :
  (is_Ok (FeedForwardBlock_init init d_model d_ff p) ↔
     (0 ≤ d_model)%Z ∧ (0 ≤ d_ff)%Z ∧ fltb p fzero = false ∧ fltb fone p = false) ∧
  ∀ self, FeedForwardBlock_init init d_model d_ff p = Ok self →
    self !! "Linear_1" =
      Some (VLinear (of_fun [Z.to_nat d_ff; Z.to_nat d_model]
                       (init "Linear_1" [Z.to_nat d_ff; Z.to_nat d_model]))
                    (of_fun [Z.to_nat d_ff] (init "Linear_1" [Z.to_nat d_ff]))) ∧
    self !! "Linear_2" =
      Some (VLinear (of_fun [Z.to_nat d_model; Z.to_nat d_ff]
                       (init "Linear_2" [Z.to_nat d_model; Z.to_nat d_ff]))
                    (of_fun [Z.to_nat d_model] (init "Linear_2" [Z.to_nat d_model]))) ∧
    self !! "dropout" = Some (VDropout p true).
Proof.
  unfold FeedForwardBlock_init. split.
  - split.
    + intros [self Hi].
      destruct (nn_Linear (init "Linear_1") d_model d_ff) as [l1|] eqn:E1; [|done].
      apply nn_Linear_inv in E1 as (? & ? & _). cbn [mbind result_bind] in Hi.
      destruct (nn_Dropout p) as [d|] eqn:Ed; [|done].
      repeat split; try done; apply nn_Dropout_Ok; rewrite Ed; by eexists.
    + intros (Hd & Hf & H1 & H2).
      rewrite !nn_Linear_eq by done. rewrite nn_Dropout_eq by done.
      cbn [mbind result_bind]. by eexists.
  - intros self Hi.
    destruct (nn_Linear (init "Linear_1") d_model d_ff) as [l1|] eqn:E1; [|done].
    apply nn_Linear_inv in E1 as (? & ? & ->). cbn [mbind result_bind] in Hi.
    destruct (nn_Dropout p) as [d|] eqn:Ed; [|done].
    apply nn_Dropout_inv in Ed as ->. cbn [mbind result_bind] in Hi.
    rewrite nn_Linear_eq in Hi by done. cbn [mbind result_bind] in Hi.
    injection Hi as <-. split_and!; lookup_attr.
Qed.

(** X12. On an instance that holds the two projections under the names
    forward reads ([linear_1], [linear_2]) with the shapes the constructor
    gives them, forward of an input of shape (batch, seq_len, d_model) is
    linear_2(dropout(relu(linear_1(x)))) and has the shape of the input,
    the intermediate having shape (batch, seq_len, d_ff). *)
Theorem FeedForwardBlock_forward_lowercase keep self x
    (init1 init2 : list nat → list nat → A) (p : A) (training : bool)
    (d_model d_ff batch seq_len : nat) :
  self !! "linear_1" = Some (VLinear (of_fun [d_ff; d_model] (init1 [d_ff; d_model]))
                                     (of_fun [d_ff] (init1 [d_ff]))) →
  self !! "linear_2" = Some (VLinear (of_fun [d_model; d_ff] (init2 [d_model; d_ff]))
                                     (of_fun [d_model] (init2 [d_model]))) →
  self !! "dropout" = Some (VDropout p training) →
  shape x = [batch; seq_len; d_model] →
  ∃ a out,
    linear_forward (of_fun [d_ff; d_model] (init1 [d_ff; d_model]))
      (of_fun [d_ff] (init1 [d_ff])) x = Ok a ∧
    shape a = [batch; seq_len; d_ff] ∧
    linear_forward (of_fun [d_model; d_ff] (init2 [d_model; d_ff]))
      (of_fun [d_model] (init2 [d_model])) (dropout_forward keep p training (relu a)) = Ok out ∧
    FeedForwardBlock_forward keep self x = Ok out ∧
    shape out = [batch; seq_len; d_model].
Proof.
  intros H1 H2 Hd Hx.
  destruct (linear_forward_shape (init1 [d_ff; d_model]) (init1 [d_ff]) d_ff d_model
              batch seq_len x Hx) as (a & Ha & Hsa).
  destruct (linear_forward_shape (init2 [d_model; d_ff]) (init2 [d_model]) d_model d_ff
              batch seq_len (dropout_forward keep p training (relu a))) as (out & Ho & Hso).
  { by rewrite dropout_forward_shape. }
  exists a, out. split_and!; try done.
  unfold FeedForwardBlock_forward, getattr. rewrite H1, H2, Hd.
  cbn [mbind result_bind]. unfold call, call_module.
  rewrite Ha. cbn [mbind result_bind]. exact Ho.
Qed.

(** *** Section 5: MultiHeadAttentionBlock *)

(** X13. MultiHeadAttentionBlock(d_model, h, dropout) is constructed
    exactly when h is not 0, d_model % h == 0, d_model is not negative and
    the rate is neither below 0 nor above 1 (a negative h that divides
    d_model is accepted); the instance then holds h, d_model, the dropout
    module, four projections of shape (d_model, d_model) and no attribute
    [attention_scores]. *)
Theorem MultiHeadAttentionBlock_init_succeeds_iff init (d_model h : Z) (p : A) :
  (is_Ok (MultiHeadAttentionBlock_init init d_model h p) ↔
     h ≠ 0%Z ∧ (d_model mod h = 0)%Z ∧ (0 ≤ d_model)%Z ∧
     fltb p fzero = false ∧ fltb fone p = false) ∧
  ∀ self, MultiHeadAttentionBlock_init init d_model h p = Ok self →
    self !! "attention_scores" = None ∧
    self !! "h" = Some (VInt h) ∧ self !! "d_model" = Some (VInt d_model) ∧
    self !! "dropout" = Some (VDropout p true) ∧
    ∀ name, name ∈ ["w_q"; "w_k"; "w_v"; "w_o"] →
      self !! name =
        Some (VLinear (of_fun [Z.to_nat d_model; Z.to_nat d_model]
                         (init name [Z.to_nat d_model; Z.to_nat d_model]))
                      (of_fun [Z.to_nat d_model] (init name [Z.to_nat d_model]))).
Proof.
  split.
  - split.
    + intros [self Hi].
      destruct (MultiHeadAttentionBlock_init_inv _ _ _ _ _ Hi) as (Hh & Hm & Hd & _).
      repeat split; try done.
      all: apply nn_Dropout_Ok; revert Hi;
        unfold MultiHeadAttentionBlock_init, py_mod, py_floordiv, py_assert;
        rewrite (bool_decide_eq_false_2 (h = 0%Z)) by done; cbn [mbind result_bind];
        rewrite bool_decide_eq_true_2 by done; cbn [mbind result_bind];
        rewrite !nn_Linear_eq by done; cbn [mbind result_bind];
        destruct (nn_Dropout p); [by eexists | done].
    + intros (Hh & Hm & Hd & H1 & H2).
      unfold MultiHeadAttentionBlock_init, py_mod, py_floordiv, py_assert.
      rewrite (bool_decide_eq_false_2 (h = 0%Z)) by done. cbn [mbind result_bind].
      rewrite bool_decide_eq_true_2 by done. cbn [mbind result_bind].
      rewrite !nn_Linear_eq by done. rewrite nn_Dropout_eq by done.
      cbn [mbind result_bind]. by eexists.
  - intros self Hi.
    destruct (MultiHeadAttentionBlock_init_inv _ _ _ _ _ Hi)
      as (Hh & Hm & Hd & wq & wk & wv & wo & Eq & Ek & Ev & Eo & ->).
    apply nn_Linear_inv in Eq as (_ & _ & ->), Ek as (_ & _ & ->),
      Ev as (_ & _ & ->), Eo as (_ & _ & ->).
    split; [lookup_attr|]. split; [lookup_attr|]. split; [lookup_attr|].
    split; [lookup_attr|].
    intros name Hn. rewrite !elem_of_cons in Hn.
    destruct Hn as [->|[->|[->|[->|Hn]]]]; [lookup_attr..|by apply elem_of_nil in Hn].
Qed.

(** X14. With a global [mask] bound to None or to a tensor that expands
    to the shape of the scores, and dropout None or a dropout module,
    attention(query, key, value, dropout) on shapes (..., s, d_k),
    (..., t, d_k), (..., t, d_v) returns (out, probs) of shapes
    (..., s, d_v) and (..., s, t): the scores are q·k / sqrt(d_k) with
    -1e9 written where the mask is 0, probs is their softmax over the
    keys when the dropout is off, and out is probs times value. *)
Theorem MultiHeadAttentionBlock_attention_formula G keep (mask dropout : value A)
    (query key value : tensor A) (p : A) (training : bool) bs s t dk dv :
  G !! "mask" = Some mask →
  (mask = VNone ∨ ∃ m, mask = VTensor m ∧ expandable (shape m) (bs ++ [s; t]) = true) →
  (dropout = VNone ∨ dropout = VDropout p training) →
  shape query = bs ++ [s; dk] → shape key = bs ++ [t; dk] → shape value = bs ++ [t; dv] →
  length (strides key) = length (shape key) →
  ∃ scores probs out,
    MultiHeadAttentionBlock_attention G keep
      [VTensor query; VTensor key; VTensor value; dropout] = Ok (out, probs) ∧
    shape scores = bs ++ [s; t] ∧ shape probs = bs ++ [s; t] ∧ shape out = bs ++ [s; dv] ∧
    (∀ pre i j, in_range bs pre → i < s → j < t →
       get scores (pre ++ [i; j]) =
         let a := fdiv (fsum ((λ c, fmul (get query (pre ++ [i; c])) (get key (pre ++ [j; c])))
                                <$> seq 0 dk))
                       (fsqrt (of_Z (Z.of_nat dk))) in
         match mask with
         | VTensor m =>
             if feqb (get m (bidx (shape m) (pre ++ [i; j]))) fzero
             then of_Q (-1000000000) else a
         | _ => a
         end) ∧
    (dropout = VNone ∨ training = false ∨ feqb p fzero = true →
     ∀ pre i j, in_range bs pre → i < s → j < t →
       get probs (pre ++ [i; j]) =
         let v := (λ j', get scores (pre ++ [i; j'])) <$> seq 0 t in
         fdiv (fexp (fsub (get scores (pre ++ [i; j])) (fmaximum v)))
              (fsum ((λ a, fexp (fsub a (fmaximum v))) <$> v))) ∧
    (∀ pre i c, in_range bs pre → i < s → c < dv →
       get out (pre ++ [i; c]) =
         fsum ((λ j, fmul (get probs (pre ++ [i; j])) (get value (pre ++ [j; c])))
                 <$> seq 0 t)).
Proof. apply MultiHeadAttentionBlock_attention_spec. Qed.

(** X15. attention raises RuntimeError in the product query @ key^T
    whenever the innermost sizes of query and key differ, before the name
    [mask] is looked up: the result does not depend on the globals. *)
Theorem MultiHeadAttentionBlock_attention_size_mismatch G keep (dropout : value A)
    (query key value : tensor A) bs bs' s t dk dk' :
  shape query = bs ++ [s; dk] → shape key = bs' ++ [t; dk'] →
  length (strides key) = length (shape key) → dk ≠ dk' →
  ∃ msg, MultiHeadAttentionBlock_attention G keep
    [VTensor query; VTensor key; VTensor value; dropout] = Err (RuntimeError msg).
Proof.
  intros Hq Hk Hl Hne.
  unfold MultiHeadAttentionBlock_attention. cbn [as_tensor as_operand mbind result_bind].
  rewrite (shape_at_last query (bs ++ [s]) dk) by (by rewrite <- snoc2).
  cbn [mbind result_bind].
  destruct (transpose_last2 key bs' t dk' Hk Hl) as (kt & -> & Hskt & _).
  cbn [mbind result_bind].
  rewrite (matmul_mismatch query kt bs bs' s dk dk' t Hq Hskt Hne). by eexists.
Qed.

(** X18. Binding a global [d_k] does not repair line 249: on a
    constructed instance and inputs of shape (batch, seq_len, d_model),
    forward then raises TypeError, because [self,d_k] hands the instance
    itself to view as its fourth size; the instance is left as it was. *)
Theorem MultiHeadAttentionBlock_forward_view_type_error G init (d_model h : Z) (p : A)
    self keep (q k v : tensor A) (mask d_k : value A) (batch seq_q seq_k seq_v : nat) :
  MultiHeadAttentionBlock_init init d_model h p = Ok self →
  G !! "d_k" = Some d_k →
  shape q = [batch; seq_q; Z.to_nat d_model] →
  shape k = [batch; seq_k; Z.to_nat d_model] →
  shape v = [batch; seq_v; Z.to_nat d_model] →
  ∃ msg, MultiHeadAttentionBlock_forward G keep self q k v mask
    = (Err (TypeError msg), self).
Proof.
  intros Hi HG Hq Hk Hv.
  destruct (MultiHeadAttentionBlock_init_inv _ _ _ _ _ Hi)
    as (Hh & Hm & Hd & wq & wk & wv & wo & Eq & Ek & Ev & Eo & ->).
  apply nn_Linear_inv in Eq as (_ & _ & ->), Ek as (_ & _ & ->), Ev as (_ & _ & ->).
  unfold MultiHeadAttentionBlock_forward, getattr, lookup_name. rewrite HG.
  repeat match goal with
  | |- context [?m !! ?key] =>
      lazymatch m with
      | insert _ _ _ =>
          let r := fresh in
          evar (r : option (value A));
          assert (m !! key = r) as -> by (subst r; lookup_attr); subst r
      end
  end.
  simpl. unfold call. simpl.
  destruct (linear_forward_shape (init "w_q" [Z.to_nat d_model; Z.to_nat d_model])
              (init "w_q" [Z.to_nat d_model]) (Z.to_nat d_model) _ _ _ q Hq)
    as (query & -> & Hsq).
  destruct (linear_forward_shape (init "w_k" [Z.to_nat d_model; Z.to_nat d_model])
              (init "w_k" [Z.to_nat d_model]) (Z.to_nat d_model) _ _ _ k Hk)
    as (key & -> & Hsk).
  destruct (linear_forward_shape (init "w_v" [Z.to_nat d_model; Z.to_nat d_model])
              (init "w_v" [Z.to_nat d_model]) (Z.to_nat d_model) _ _ _ v Hv)
    as (value & -> & Hsv).
  simpl.
  rewrite (shape_at_0 query _ _ Hsq), (shape_at_1 query _ _ _ Hsq). simpl.
  eauto.
Qed.


(** *** Section 6: ResidualConnection *)

(** X22. ResidualConnection(dropout) is constructed exactly when the rate
    is neither below 0 nor above 1; the instance then holds a dropout
    module of that rate in training mode and a LayerNormalization with
    eps = 1e-6, alpha = [1] and bias = [0]. *)
Theorem ResidualConnection_init_succeeds_iff (p : A) :
  (is_Ok (ResidualConnection_init p) ↔ fltb p fzero = false ∧ fltb fone p = false) ∧
  ∀ self, ResidualConnection_init p = Ok self →
    self !! "dropout" = Some (VDropout p true) ∧
    ∃ norm, self !! "norm" = Some (VObj "LayerNormalization" norm) ∧
      norm !! "eps" = Some (VFloat (of_Q (1 # 1000000))) ∧
      norm !! "alpha" = Some (VTensor (of_fun [1] (λ _, fone))) ∧
      norm !! "bias" = Some (VTensor (of_fun [1] (λ _, fzero))).
Proof.
  split.
  - rewrite <- nn_Dropout_Ok. unfold ResidualConnection_init, is_Ok.
    destruct (nn_Dropout p) as [d|]; cbn [mbind result_bind]; split; intros [? ?]; eauto; done.
  - intros self Hi.
    destruct (ResidualConnection_init_attrs p self Hi) as (Hd & norm & Hn & Hs).
    split; [done|]. exists norm. split; [done|].
    destruct (LayerNormalization_init_attrs (A:=A) LayerNormalization_eps)
      as (norm' & Hn' & He & Ha & Hb).
    rewrite Hn in Hn'. injection Hn' as <-. done.
Qed.

(** X23. On a constructed ResidualConnection, an input of at least one
    dimension and a sublayer that keeps the shape of its argument,
    forward succeeds, keeps the shape of x, and every element is
    x + dropout(sublayer(norm(x))) at the same index. *)
Theorem ResidualConnection_forward_keeps_shape keep (p : A) self x
    (sublayer : tensor A → result (tensor A)) :
  ResidualConnection_init p = Ok self →
  shape x ≠ [] →
  (∀ z, shape z = shape x → ∃ y, sublayer z = Ok y ∧ shape y = shape x) →
  ∃ norm normed y out,
    self !! "norm" = Some (VObj "LayerNormalization" norm) ∧
    LayerNormalization_forward norm x = Ok normed ∧ shape normed = shape x ∧
    sublayer normed = Ok y ∧
    ResidualConnection_forward keep self x sublayer = Ok out ∧
    shape out = shape x ∧
    ∀ idx, in_range (shape x) idx →
      get out idx = fadd (get x idx) (get (dropout_forward keep p true y) idx).
Proof.
  intros Hi Hx Hsub.
  destruct (ResidualConnection_init_attrs p self Hi) as (Hd & norm & Hn & Hsn).
  destruct (LayerNormalization_init_attrs (A:=A) LayerNormalization_eps)
    as (norm' & Hn' & He & Ha & Hb).
  rewrite Hn in Hn'. injection Hn' as <-.
  destruct (LayerNormalization_forward_get norm x _ _ _ Ha Hb He eq_refl eq_refl Hx)
    as (normed & Hnormed & Hsnormed & _).
  destruct (Hsub normed Hsnormed) as (y & Hy & Hsy).
  destruct (tmap2_spec fadd x (dropout_forward keep p true y) (shape x)) as (out & Ho & Hso & Hgo).
  { rewrite dropout_forward_shape, Hsy. apply broadcast_shapes_refl. }
  exists norm, normed, y, out. split_and!; try done.
  - unfold ResidualConnection_forward, getattr. rewrite Hd, Hsn.
    cbn [mbind result_bind]. unfold call, call_module.
    change (String.eqb "LayerNormalization" "LayerNormalization") with true. cbv iota.
    rewrite Hnormed. cbn [mbind result_bind]. rewrite Hy. cbn [mbind result_bind].
    exact Ho.
  - intros idx Hr. rewrite Hgo by done.
    rewrite dropout_forward_shape, Hsy. by rewrite !bidx_self.
Qed.

End NotebookExtras.

(** ** Exact arithmetic: the classes over the reals *)

Lemma fzero_R : fzero (A:=R) = 0%R.
Proof. unfold fzero. simpl. change 0%Q with (inject_Z 0). apply Q2R_inject_Z. Qed.

Lemma fone_R : fone (A:=R) = 1%R.
Proof. unfold fone. simpl. change 1%Q with (inject_Z 1). apply Q2R_inject_Z. Qed.

Lemma of_nat_R (n : nat) : of_nat (A:=R) n = INR n.
Proof. unfold of_nat, of_Z. simpl. by rewrite Q2R_inject_Z, INR_IZR_INZ. Qed.

Lemma foldl_Rplus (a : R) (l : list R) : foldl Rplus a l = (a + foldl Rplus 0 l)%R.
Proof.
  revert a. induction l as [|b l IH]; intros a; simpl; [lra|].
  rewrite (IH (a + b)%R), (IH (0 + b)%R). lra.
Qed.

Lemma fsum_R_nil : fsum (A:=R) [] = 0%R.
Proof. exact fzero_R. Qed.

Lemma fsum_R_cons (a : R) (l : list R) : fsum (a :: l) = (a + fsum l)%R.
Proof.
  change (foldl Rplus (fzero + a)%R l = (a + foldl Rplus fzero l)%R).
  rewrite fzero_R, foldl_Rplus. f_equal. lra.
Qed.

Lemma fsum_R_div {X} (f : X → R) (c : R) (l : list X) :
  fsum ((λ a, fdiv (f a) c) <$> l) = (fsum (f <$> l) / c)%R.
Proof.
  induction l as [|a l IH].
  - rewrite !fmap_nil, fsum_R_nil. lra.
  - rewrite !fmap_cons, !fsum_R_cons, IH. simpl fdiv. lra.
Qed.

Lemma fsum_R_sub_const {X} (f : X → R) (a : R) (l : list X) :
  fsum ((λ j, fsub (f j) a) <$> l) = (fsum (f <$> l) - INR (length l) * a)%R.
Proof.
  induction l as [|b l IH].
  - rewrite !fmap_nil, fsum_R_nil. simpl. lra.
  - rewrite !fmap_cons, !fsum_R_cons, IH. cbn [length]. rewrite S_INR. simpl fsub. lra.
Qed.

Lemma fsum_R_pos {X} (f : X → R) (l : list X) :
  l ≠ [] → (∀ a, (0 < f a)%R) → (0 < fsum (f <$> l))%R.
Proof.
  intros Hl Hf. destruct l as [|a l]; [done|]. clear Hl.
  revert a. induction l as [|b l IH]; intros a.
  - rewrite fmap_cons, fmap_nil, fsum_R_cons, fsum_R_nil. specialize (Hf a). lra.
  - rewrite fmap_cons, fsum_R_cons. specialize (IH b). specialize (Hf a). lra.
Qed.

Lemma fsum_R_elem_le {X} (f : X → R) (l : list X) (a : X) :
  (∀ b, (0 <= f b)%R) → a ∈ l → (f a <= fsum (f <$> l))%R.
Proof.
  intros Hf. induction l as [|b l IH]; intros Hin; [by apply elem_of_nil in Hin|].
  rewrite fmap_cons, fsum_R_cons.
  assert (Hsum : (0 <= fsum (f <$> l))%R).
  { clear IH Hin. induction l as [|c l IHl]; [rewrite fmap_nil, fsum_R_nil; lra|].
    rewrite fmap_cons, fsum_R_cons. specialize (Hf c). lra. }
  apply elem_of_cons in Hin as [->|Hin].
  - lra.
  - specialize (IH Hin). specialize (Hf b). lra.
Qed.

Lemma fsum_R_const {X} (l : list X) (c : R) :
  fsum ((λ _, c) <$> l) = (INR (length l) * c)%R.
Proof.
  induction l as [|a l IH].
  - rewrite fmap_nil, fsum_R_nil. simpl. lra.
  - rewrite fmap_cons, fsum_R_cons, IH. cbn [length]. rewrite S_INR. lra.
Qed.

Lemma fmaximum_R_const {X} (l : list X) (c : R) :
  l ≠ [] → fmaximum ((λ _, c) <$> l) = c.
Proof.
  destruct l as [|a l]; [done|]. intros _. simpl.
  induction l as [|b l IH]; simpl; [done|].
  unfold Rmax at 2. destruct (Rle_dec c c); exact IH.
Qed.

Lemma avg_R (l : list R) : avg l = (fsum l / INR (length l))%R.
Proof. unfold avg. by rewrite of_nat_R. Qed.

(** The elements of a fresh LayerNormalization's output: alpha is 1 and
    bias is 0. *)
Lemma LayerNormalization_forward_fresh_R (self : gmap string (value R)) (x : tensor R) s n :
  LayerNormalization_init LayerNormalization_eps = Ok self →
  shape x = s ++ [n] →
  ∃ y, LayerNormalization_forward self x = Ok y ∧ shape y = s ++ [n] ∧
    ∀ pre j, in_range s pre → j < n →
      let v := (λ j', get x (pre ++ [j'])) <$> seq 0 n in
      get y (pre ++ [j]) =
        ((get x (pre ++ [j]) - avg v) / (sample_std v + LayerNormalization_eps))%R.
Proof.
  intros Hi Hs.
  destruct (LayerNormalization_init_attrs (A:=R) LayerNormalization_eps)
    as (self' & Hi' & He & Ha & Hb).
  rewrite Hi in Hi'. injection Hi' as <-.
  destruct (LayerNormalization_forward_get self x _ _ _ Ha Hb He eq_refl eq_refl)
    as (y & Hy & Hsy & Hg).
  { rewrite Hs. by destruct s. }
  exists y. split; [done|]. split; [by rewrite Hsy|].
  intros pre j Hp Hj v.
  rewrite Hg by (rewrite Hs; by apply in_range_snoc).
  rewrite removelast_snoc, (row_snoc _ _ _ _ _ Hs).
  assert (Ha1 : get (of_fun [1] (λ _, fone (A:=R))) [0] = 1%R).
  { unfold get. rewrite tget_of_fun by (apply in_range_1; lia). apply fone_R. }
  assert (Hb0 : get (of_fun [1] (λ _, fzero (A:=R))) [0] = 0%R).
  { unfold get. rewrite tget_of_fun by (apply in_range_1; lia). apply fzero_R. }
  rewrite Ha1, Hb0. subst v. unfold get.
  cbn [fadd fsub fmul fdiv R_Scalar]. unfold Rdiv. lra.
Qed.

(** X7. In exact arithmetic every column pair of the table of lines
    83-91 lies on the unit circle, sin^2 + cos^2 = 1, and the row of
    position 0 is (0, 1, 0, 1, ...). *)
Theorem PositionalEncoding_table_unit_circle (d_model seq_len : Z) (pos i : nat) :
  (0 < d_model)%Z → (d_model mod 2 = 0)%Z →
  (Z.of_nat pos < seq_len)%Z → (2 * Z.of_nat i < d_model)%Z →
  ∃ pe : tensor R, PositionalEncoding_table d_model seq_len = Ok pe ∧
    Rplus (Rsqr (get pe [pos; 2 * i])) (Rsqr (get pe [pos; 2 * i + 1])) = 1%R ∧
    (pos = 0 → get pe [0; 2 * i] = 0%R ∧ get pe [0; 2 * i + 1] = 1%R).
Proof.
  intros Hd Hm Hp Hi.
  assert (Hdm : d_model = Z.of_nat (2 * Z.to_nat (d_model / 2))).
  { pose proof (Z_div_exact_full_2 d_model 2 ltac:(lia) Hm). lia. }
  assert (Hsl : seq_len = Z.of_nat (Z.to_nat seq_len)) by lia.
  destruct (PositionalEncoding_table_entries (A:=R) (Z.to_nat (d_model / 2))
              (Z.to_nat seq_len)) as (pe & Hpe & _ & Hg); [lia|].
  rewrite <- Hdm, <- Hsl in Hpe. rewrite <- Hdm in Hg.
  exists pe. split; [done|].
  split.
  - destruct (Hg pos i) as [-> ->]; [lia..|]. apply sin2_cos2.
  - intros ->. destruct (Hg 0 i) as [-> ->]; [lia..|].
    unfold pe_angle, of_Z. simpl fsin. simpl fcos. simpl fmul. simpl of_Q.
    change (Z.of_nat 0 * 1)%Z with 0%Z. rewrite (Q2R_inject_Z 0), Rmult_0_l.
    split; [apply sin_0 | apply cos_0].
Qed.

(** X9. In exact arithmetic, the output of a freshly constructed
    LayerNormalization sums to 0 along every innermost vector of at
    least two elements (where the sample deviation is defined). *)
Theorem LayerNormalization_forward_zero_mean (self : gmap string (value R)) (x : tensor R)
    s n pre :
  LayerNormalization_init LayerNormalization_eps = Ok self →
  shape x = s ++ [n] → 2 ≤ n → in_range s pre →
  ∃ y, LayerNormalization_forward self x = Ok y ∧
    fsum ((λ j, get y (pre ++ [j])) <$> seq 0 n) = 0%R.
Proof.
  intros Hi Hs Hn Hp.
  destruct (LayerNormalization_forward_fresh_R self x s n Hi Hs) as (y & Hy & _ & Hg).
  exists y. split; [done|].
  set (v := (λ j', get x (pre ++ [j'])) <$> seq 0 n).
  transitivity (fsum ((λ j, fdiv (fsub (get x (pre ++ [j])) (avg v))
                                 (sample_std v + LayerNormalization_eps)%R) <$> seq 0 n)).
  { f_equal. apply list_fmap_ext. intros _ j Hj%list_elem_of_lookup_2%elem_of_seq.
    apply Hg; [done|lia]. }
  rewrite (fsum_R_div (λ j, fsub (get x (pre ++ [j])) (avg v))).
  rewrite (fsum_R_sub_const (λ j, get x (pre ++ [j]))).
  assert (Hlen : length v = n) by (unfold v; by rewrite length_fmap, length_seq).
  fold v. rewrite avg_R, Hlen, length_seq.
  assert (INR n ≠ 0%R) by (apply not_0_INR; lia).
  unfold Rdiv. replace (INR n * (fsum v * / INR n))%R with (fsum v) by (field; done).
  lra.
Qed.

(** X10. In exact arithmetic a freshly constructed LayerNormalization
    maps an innermost vector of equal elements (of length at least 2) to
    zeros: the deviation is 0 and eps keeps the quotient defined. *)
Theorem LayerNormalization_forward_constant_row (self : gmap string (value R))
    (x : tensor R) s n pre (c : R) :
  LayerNormalization_init LayerNormalization_eps = Ok self →
  shape x = s ++ [n] → 2 ≤ n → in_range s pre →
  (∀ j, j < n → get x (pre ++ [j]) = c) →
  ∃ y, LayerNormalization_forward self x = Ok y ∧
    ∀ j, j < n → get y (pre ++ [j]) = 0%R.
Proof.
  intros Hi Hs Hn Hp Hc.
  destruct (LayerNormalization_forward_fresh_R self x s n Hi Hs) as (y & Hy & _ & Hg).
  exists y. split; [done|]. intros j Hj. rewrite Hg by done. cbn zeta.
  assert (Hv : (λ j', get x (pre ++ [j'])) <$> seq 0 n = (λ _, c) <$> seq 0 n).
  { apply list_fmap_ext. intros _ j' Hj'%list_elem_of_lookup_2%elem_of_seq. apply Hc. lia. }
  rewrite Hv, Hc by done.
  rewrite avg_R, fsum_R_const, length_fmap, length_seq.
  assert (INR n ≠ 0%R) by (apply not_0_INR; lia).
  replace (c - INR n * c / INR n)%R with 0%R by (field; done).
  unfold Rdiv. lra.
Qed.

(** X16. In exact arithmetic, with a global [mask] bound (None or an
    expandable tensor) and the dropout off, every row of the attention
    probabilities over at least one key sums to 1, masked positions
    included, and every probability lies between 0 and 1. *)
Theorem MultiHeadAttentionBlock_attention_rows_sum_to_one
    (G : gmap string (value R)) keep (mask dropout : value R)
    (query key value : tensor R) (p : R) (training : bool) bs s t dk dv pre i :
  G !! "mask" = Some mask →
  (mask = VNone ∨ ∃ m, mask = VTensor m ∧ expandable (shape m) (bs ++ [s; t]) = true) →
  (dropout = VNone ∨ dropout = VDropout p training ∧ (training = false ∨ p = 0%R)) →
  shape query = bs ++ [s; dk] → shape key = bs ++ [t; dk] → shape value = bs ++ [t; dv] →
  length (strides key) = length (shape key) →
  in_range bs pre → i < s → 0 < t →
  ∃ out probs,
    MultiHeadAttentionBlock_attention G keep
      [VTensor query; VTensor key; VTensor value; dropout] = Ok (out, probs) ∧
    fsum ((λ j, get probs (pre ++ [i; j])) <$> seq 0 t) = 1%R ∧
    ∀ j, j < t → (0 <= get probs (pre ++ [i; j]) <= 1)%R.
Proof.
  intros HG Hmask Hdrop Hq Hk Hv Hl Hp Hi Ht.
  destruct (MultiHeadAttentionBlock_attention_spec G keep mask dropout query key value
              p training bs s t dk dv HG Hmask) as
    (scores & probs & out & Hatt & _ & _ & _ & _ & Hprobs & _); try done.
  { destruct Hdrop as [->|[-> _]]; eauto. }
  exists out, probs. split; [done|].
  assert (Hoff : dropout = VNone ∨ training = false ∨ feqb p fzero = true).
  { destruct Hdrop as [->|[-> [->| ->]]]; eauto.
    right; right. rewrite fzero_R. apply Reqb_refl. }
  specialize (Hprobs Hoff pre i).
  set (v := (λ j', get scores (pre ++ [i; j'])) <$> seq 0 t) in *.
  set (total := fsum ((λ a, fexp (fsub a (fmaximum v))) <$> v)) in *.
  assert (Htotal : (0 < total)%R).
  { unfold total. apply fsum_R_pos; [|intros a; apply exp_pos].
    unfold v. destruct t; [lia|]. done. }
  split.
  - transitivity (fsum ((λ j, fdiv (fexp (fsub (get scores (pre ++ [i; j])) (fmaximum v)))
                                   total) <$> seq 0 t)).
    { f_equal. apply list_fmap_ext. intros _ j Hj%list_elem_of_lookup_2%elem_of_seq.
      apply Hprobs; [done..|lia]. }
    rewrite (fsum_R_div (λ j, fexp (fsub (get scores (pre ++ [i; j])) (fmaximum v)))).
    replace (fsum _) with total; [by apply Rdiv_diag, Rgt_not_eq|].
    unfold total, v. by rewrite <- list_fmap_compose.
  - intros j Hj. rewrite Hprobs by done. cbn zeta. fold v. fold total.
    assert (Hle : (fexp (fsub (get scores (pre ++ [i; j])) (fmaximum v)) <= total)%R).
    { unfold total.
      apply (fsum_R_elem_le (λ a, fexp (fsub a (fmaximum v))) v (get scores (pre ++ [i; j]))).
      - intros a. left. apply exp_pos.
      - unfold v. apply list_elem_of_fmap. exists j. split; [done|].
        apply elem_of_seq. lia. }
    pose proof (exp_pos (fsub (get scores (pre ++ [i; j])) (fmaximum v))) as Hpos.
    simpl fdiv. split.
    + left. apply Rdiv_lt_0_compat; [exact Hpos | exact Htotal].
    + apply (Rmult_le_reg_r total); [exact Htotal|].
      unfold Rdiv. rewrite Rmult_assoc, Rinv_l by (by apply Rgt_not_eq).
      change (exp (get scores (pre ++ [i; j]) - fmaximum v) <= total)%R in Hle. lra.
Qed.

(** X17. In exact arithmetic, a query row whose every key position is
    masked (the global mask is 0 there) does not attend to nothing: with
    the dropout off its t probabilities are all 1/t. *)
Theorem MultiHeadAttentionBlock_attention_fully_masked_row
    (G : gmap string (value R)) keep (dropout : value R) (m : tensor R)
    (query key value : tensor R) (p : R) (training : bool) bs s t dk dv pre i :
  G !! "mask" = Some (VTensor m) →
  expandable (shape m) (bs ++ [s; t]) = true →
  (dropout = VNone ∨ dropout = VDropout p training ∧ (training = false ∨ p = 0%R)) →
  shape query = bs ++ [s; dk] → shape key = bs ++ [t; dk] → shape value = bs ++ [t; dv] →
  length (strides key) = length (shape key) →
  in_range bs pre → i < s →
  (∀ j, j < t → get m (bidx (shape m) (pre ++ [i; j])) = 0%R) →
  ∃ out probs,
    MultiHeadAttentionBlock_attention G keep
      [VTensor query; VTensor key; VTensor value; dropout] = Ok (out, probs) ∧
    ∀ j, j < t → get probs (pre ++ [i; j]) = (1 / INR t)%R.
Proof.
  intros HG He Hdrop Hq Hk Hv Hl Hp Hi Hm.
  destruct (MultiHeadAttentionBlock_attention_spec G keep (VTensor m) dropout query key value
              p training bs s t dk dv HG) as
    (scores & probs & out & Hatt & _ & _ & _ & Hscores & Hprobs & _); try done.
  { right. eauto. }
  { destruct Hdrop as [->|[-> _]]; eauto. }
  exists out, probs. split; [done|].
  assert (Hoff : dropout = VNone ∨ training = false ∨ feqb p fzero = true).
  { destruct Hdrop as [->|[-> [->| ->]]]; eauto.
    right; right. rewrite fzero_R. apply Reqb_refl. }
  intros j Hj. rewrite (Hprobs Hoff pre i j) by done. cbn zeta.
  assert (Hrow : (λ j', get scores (pre ++ [i; j'])) <$> seq 0 t =
                 (λ _, of_Q (-1000000000)) <$> seq 0 t).
  { apply list_fmap_ext. intros _ j' Hj'%list_elem_of_lookup_2%elem_of_seq.
    rewrite Hscores by (done || lia). cbn zeta.
    rewrite Hm by lia. rewrite fzero_R. simpl feqb. by rewrite Reqb_refl. }
  rewrite Hrow, Hscores by done. cbn zeta. rewrite Hm by done.
  rewrite fzero_R. simpl feqb. rewrite Reqb_refl.
  rewrite fmaximum_R_const by (destruct t; [lia|done]).
  rewrite <- list_fmap_compose.
  change (fexp (fsub (of_Q (-1000000000)) (of_Q (-1000000000)))) with
    (exp (of_Q (-1000000000) - of_Q (-1000000000))).
  rewrite Rminus_diag, exp_0.
  match goal with |- context [fsum ?l] =>
    replace (fsum l) with (fsum ((λ _ : nat, 1%R) <$> seq 0 t))
  end.
  2:{ f_equal. apply list_fmap_ext. intros _ j' _. simpl.
      by rewrite Rminus_diag, exp_0. }
  rewrite fsum_R_const, length_seq. simpl fdiv. f_equal. lra.
Qed.

(** ** The further properties at concrete inputs *)

Lemma sample_embeddings_embedding :
  sample_embeddings !! "embedding" =
    Some (VObj "Embedding" (<["weight" := VTensor sample_weight]> ∅)).
Proof. unfold sample_embeddings. apply lookup_insert_eq. Qed.

Lemma sample_embeddings_d_model : sample_embeddings !! "d_model" = Some (VInt 4).
Proof. unfold sample_embeddings. lookup_attr. Qed.

Lemma sample_positional_pe : sample_positional !! "pe" = Some (VTensor sample_pe).
Proof. unfold sample_positional. lookup_attr. Qed.

Lemma sample_positional_dropout :
  sample_positional !! "dropout" = Some (VDropout 0%R false).
Proof. unfold sample_positional. apply lookup_insert_eq. Qed.

Lemma sample_globals_mask (mask : value R) : sample_globals mask !! "mask" = Some mask.
Proof. unfold sample_globals. apply lookup_insert_eq. Qed.

Lemma rate_0_R : fltb 0%R (fzero (A:=R)) = false ∧ fltb (fone (A:=R)) 0%R = false.
Proof.
  rewrite fzero_R, fone_R. split; apply Rltb_false; lra.
Qed.

(** Ids 2 into a table of 3 rows, with d_model = 4. *)
Lemma InputEmbeddings_forward_lookup_witness :
  ∃ y, InputEmbeddings_forward sample_embeddings sample_ids = Ok y ∧
    shape y = [1; 2; 4] ∧
    get y [0; 1; 3] = fmul (get sample_weight [2; 3]) (fsqrt (of_Z 4)).
Proof.
  destruct (InputEmbeddings_forward_lookup sample_embeddings sample_weight sample_ids
              (<["weight" := VTensor sample_weight]> ∅) 4 3 4
              sample_embeddings_embedding (lookup_insert_eq _ _ _)
              sample_embeddings_d_model eq_refl) as [Hok _].
  - intros idx Hr. unfold sample_ids. rewrite tget_of_fun by exact Hr. lia.
  - destruct Hok as (y & Hy & Hs & Hg).
    + split; [lia | reflexivity].
    + exists y. split; [exact Hy|]. split; [exact Hs|].
      apply (Hg [0; 1] 3); [apply in_range_2; lia | lia].
Defined.

(** Ids 3 into a table of 3 rows. *)
Lemma InputEmbeddings_forward_out_of_range_witness :
  InputEmbeddings_forward sample_embeddings sample_bad_ids = Err IndexError.
Proof.
  apply (InputEmbeddings_forward_out_of_range sample_embeddings sample_weight sample_bad_ids
           (<["weight" := VTensor sample_weight]> ∅) 3 4 [0; 0]
           sample_embeddings_embedding (lookup_insert_eq _ _ _) eq_refl).
  - apply in_range_2; lia.
  - right. unfold sample_bad_ids. rewrite tget_of_fun by (apply in_range_2; lia). lia.
Defined.

(** d_model = 4 and two positions. *)
Lemma PositionalEncoding_table_even_witness :
  ∃ pe : tensor R, PositionalEncoding_table 4 2 = Ok pe ∧ shape pe = [2; 4] ∧
    get pe [1; 2] = fsin (pe_angle 4 1 1).
Proof.
  destruct (PositionalEncoding_table_even (A:=R) 4 2) as (pe & Hpe & Hs & Hg);
    [lia | reflexivity | lia |].
  exists pe. split; [exact Hpe|]. split; [exact Hs|].
  apply (Hg 1 1); lia.
Defined.

Lemma PositionalEncoding_init_odd_witness :
  ∃ msg, PositionalEncoding_init 3 2 0%R = Err (RuntimeError msg).
Proof. apply (PositionalEncoding_init_odd 3 2 0%R); [lia | reflexivity | lia]. Defined.

Lemma PositionalEncoding_init_degenerate_witness :
  (∃ msg, PositionalEncoding_init 4 (-1) 0%R = Err (RuntimeError msg)) ∧
  PositionalEncoding_init 0 2 0%R = Err ZeroDivisionError.
Proof.
  split.
  - apply (proj1 (PositionalEncoding_init_degenerate 4 (-1) 0%R)). left. lia.
  - apply (proj2 (PositionalEncoding_init_degenerate 0 2 0%R)); [lia | reflexivity].
Defined.

Lemma PositionalEncoding_table_unit_circle_witness :
  ∃ pe : tensor R, PositionalEncoding_table 4 2 = Ok pe ∧
    Rplus (Rsqr (get pe [1; 2])) (Rsqr (get pe [1; 3])) = 1%R.
Proof.
  destruct (PositionalEncoding_table_unit_circle 4 2 1 1) as (pe & Hpe & Hc & _);
    [lia | reflexivity | lia | lia |].
  exists pe. split; [exact Hpe | exact Hc].
Defined.

(** A table for 2 positions: an input of 1 position is encoded, one of 3
    positions is refused. *)
Lemma PositionalEncoding_forward_with_module_witness :
  (∃ y, PositionalEncoding_forward sample_keep sample_positional sample_x =
          Ok (dropout_forward sample_keep 0%R false y) ∧ shape y = [1; 1; 4]) ∧
  (∃ msg, PositionalEncoding_forward sample_keep sample_positional sample_long =
            Err (RuntimeError msg)).
Proof.
  split.
  - destruct (proj1 (PositionalEncoding_forward_with_module sample_keep sample_positional
                       sample_x sample_pe 0%R false 1 1 2 4
                       sample_positional_pe sample_positional_dropout eq_refl eq_refl))
      as (y & Hy & Hs & _); [lia|].
    exists y. split; [exact Hy | exact Hs].
  - apply (proj2 (PositionalEncoding_forward_with_module sample_keep sample_positional
                    sample_long sample_pe 0%R false 1 3 2 4
                    sample_positional_pe sample_positional_dropout eq_refl eq_refl)). lia.
Defined.

(** A fresh LayerNormalization on a (1, 1, 4) tensor of ones. *)
Lemma LayerNormalization_forward_zero_mean_witness :
  ∃ self y, LayerNormalization_init LayerNormalization_eps = Ok self ∧
    LayerNormalization_forward self sample_x = Ok y ∧
    fsum ((λ j, get y [0; 0; j]) <$> seq 0 4) = 0%R.
Proof.
  destruct (LayerNormalization_init_attrs (A:=R) LayerNormalization_eps) as (self & Hi & _).
  destruct (LayerNormalization_forward_zero_mean self sample_x [1; 1] 4 [0; 0] Hi eq_refl)
    as (y & Hy & Hsum); [lia | apply in_range_2; lia |].
  exists self, y. split; [exact Hi|]. split; [exact Hy | exact Hsum].
Defined.

Lemma LayerNormalization_forward_constant_row_witness :
  ∃ self y, LayerNormalization_init LayerNormalization_eps = Ok self ∧
    LayerNormalization_forward self sample_x = Ok y ∧
    get y [0; 0; 2] = 0%R.
Proof.
  destruct (LayerNormalization_init_attrs (A:=R) LayerNormalization_eps) as (self & Hi & _).
  destruct (LayerNormalization_forward_constant_row self sample_x [1; 1] 4 [0; 0] 1%R
              Hi eq_refl) as (y & Hy & Hz); [lia | apply in_range_2; lia | |].
  - intros j Hj. unfold get, sample_x.
    rewrite tget_of_fun; [reflexivity|].
    apply (in_range_snoc [1; 1] 4 [0; 0] j); [apply in_range_2; lia | lia].
  - exists self, y. split; [exact Hi|]. split; [exact Hy|]. apply (Hz 2). lia.
Defined.

(** d_model = 4 and d_ff = 8 with rate 0 are accepted. *)
Lemma FeedForwardBlock_init_succeeds_iff_witness :
  is_Ok (FeedForwardBlock_init sample_init 4 8 0%R).
Proof.
  apply (proj2 (proj1 (FeedForwardBlock_init_succeeds_iff sample_init 4 8 0%R))).
  destruct rate_0_R as [H0 H1]. split; [lia|]. split; [lia|]. split; [exact H0 | exact H1].
Defined.

Lemma FeedForwardBlock_forward_lowercase_witness :
  ∃ out, FeedForwardBlock_forward sample_keep sample_feed_forward sample_x = Ok out ∧
    shape out = [1; 1; 4].
Proof.
  destruct (FeedForwardBlock_forward_lowercase sample_keep sample_feed_forward sample_x
              (sample_init "linear_1") (sample_init "linear_2") 0%R false 4 8 1 1)
    as (a & out & _ & _ & _ & Ho & Hs).
  - unfold sample_feed_forward. lookup_attr.
  - unfold sample_feed_forward. lookup_attr.
  - unfold sample_feed_forward. lookup_attr.
  - reflexivity.
  - exists out. split; [exact Ho | exact Hs].
Defined.

(** A negative h that divides d_model is accepted. *)
Lemma MultiHeadAttentionBlock_init_succeeds_iff_witness :
  is_Ok (MultiHeadAttentionBlock_init sample_init 4 (-2) 0%R).
Proof.
  apply (proj2 (proj1 (MultiHeadAttentionBlock_init_succeeds_iff sample_init 4 (-2) 0%R))).
  destruct rate_0_R as [H0 H1].
  split; [lia|]. split; [reflexivity|]. split; [lia|]. split; [exact H0 | exact H1].
Defined.

(** Attention of one query over one key with the global mask None. *)
Lemma MultiHeadAttentionBlock_attention_formula_witness :
  ∃ probs out,
    MultiHeadAttentionBlock_attention (sample_globals VNone) sample_keep
      [VTensor sample_x; VTensor sample_x; VTensor sample_x; VNone] = Ok (out, probs) ∧
    shape probs = [1; 1; 1] ∧ shape out = [1; 1; 4].
Proof.
  destruct (MultiHeadAttentionBlock_attention_formula (sample_globals VNone) sample_keep
              VNone VNone sample_x sample_x sample_x 0%R false [1] 1 1 4 4
              (sample_globals_mask VNone) (or_introl eq_refl) (or_introl eq_refl)
              eq_refl eq_refl eq_refl eq_refl)
    as (scores & probs & out & Hatt & _ & Hsp & Hso & _).
  exists probs, out. split; [exact Hatt|]. split; [exact Hsp | exact Hso].
Defined.

(** A key of width 3 against a query of width 4. *)
Lemma MultiHeadAttentionBlock_attention_size_mismatch_witness :
  ∃ msg, MultiHeadAttentionBlock_attention notebook_globals sample_keep
    [VTensor sample_x; VTensor sample_short_key; VTensor sample_x; VNone] =
    Err (RuntimeError msg).
Proof.
  apply (MultiHeadAttentionBlock_attention_size_mismatch notebook_globals sample_keep
           VNone sample_x sample_short_key sample_x [1] [1] 1 1 4 3 eq_refl eq_refl eq_refl).
  lia.
Defined.

(** One query over two keys, the second hidden by the mask, through a
    dropout module of rate 0. *)
Lemma MultiHeadAttentionBlock_attention_rows_sum_to_one_witness :
  ∃ out probs,
    MultiHeadAttentionBlock_attention (sample_globals (VTensor sample_key_mask)) sample_keep
      [VTensor sample_x; VTensor sample_keys; VTensor sample_keys; VDropout 0%R true] =
      Ok (out, probs) ∧
    fsum ((λ j, get probs [0; 0; j]) <$> seq 0 2) = 1%R.
Proof.
  destruct (MultiHeadAttentionBlock_attention_rows_sum_to_one
              (sample_globals (VTensor sample_key_mask)) sample_keep
              (VTensor sample_key_mask) (VDropout 0%R true)
              sample_x sample_keys sample_keys 0%R true [1] 1 2 4 4 [0] 0
              (sample_globals_mask (VTensor sample_key_mask))
              (or_intror (ex_intro _ sample_key_mask (conj eq_refl (expandable_refl [1; 1; 2]))))
              (or_intror (conj eq_refl (or_intror eq_refl)))
              eq_refl eq_refl eq_refl eq_refl)
    as (out & probs & Hatt & Hsum & _); [apply in_range_1; lia | lia | lia |].
  exists out, probs. split; [exact Hatt | exact Hsum].
Defined.

(** One key, masked: the single probability is 1/1. *)
Lemma MultiHeadAttentionBlock_attention_fully_masked_row_witness :
  ∃ out probs,
    MultiHeadAttentionBlock_attention (sample_globals (VTensor sample_mask)) sample_keep
      [VTensor sample_x; VTensor sample_x; VTensor sample_x; VNone] = Ok (out, probs) ∧
    get probs [0; 0; 0] = (1 / INR 1)%R.
Proof.
  destruct (MultiHeadAttentionBlock_attention_fully_masked_row
              (sample_globals (VTensor sample_mask)) sample_keep VNone sample_mask
              sample_x sample_x sample_x 0%R false [1] 1 1 4 4 [0] 0
              (sample_globals_mask (VTensor sample_mask)) (expandable_refl [1; 1; 1])
              (or_introl eq_refl) eq_refl eq_refl eq_refl eq_refl)
    as (out & probs & Hatt & Hp); [apply in_range_1; lia | lia | |].
  - intros j Hj. destruct j as [|j]; [reflexivity | lia].
  - exists out, probs. split; [exact Hatt|]. apply (Hp 0). lia.
Defined.

(** With a global d_k = 2 bound, forward raises TypeError. *)
Lemma MultiHeadAttentionBlock_forward_view_type_error_witness :
  ∃ self msg, MultiHeadAttentionBlock_init sample_init 4 2 0%R = Ok self ∧
    MultiHeadAttentionBlock_forward (<["d_k" := VInt 2]> notebook_globals) sample_keep self
      sample_x sample_x sample_x VNone = (Err (TypeError msg), self).
Proof.
  destruct MultiHeadAttentionBlock_init_R as [self Hs].
  destruct (MultiHeadAttentionBlock_forward_view_type_error
              (<["d_k" := VInt 2]> notebook_globals) sample_init 4 2 0%R self sample_keep
              sample_x sample_x sample_x VNone (VInt 2) 1 1 1 1 Hs
              (lookup_insert_eq _ _ _) eq_refl eq_refl eq_refl) as [msg Hm].
  exists self, msg. split; [exact Hs | exact Hm].
Defined.


Lemma ResidualConnection_init_succeeds_iff_witness : is_Ok (ResidualConnection_init 0%R).
Proof.
  apply (proj2 (proj1 (ResidualConnection_init_succeeds_iff 0%R))). exact rate_0_R.
Defined.

(** A constructed instance around the identity sublayer. *)
Lemma ResidualConnection_forward_keeps_shape_witness :
  ∃ self out, ResidualConnection_init 0%R = Ok self ∧
    ResidualConnection_forward sample_keep self sample_x Ok = Ok out ∧
    shape out = [1; 1; 4].
Proof.
  destruct ResidualConnection_init_R as [self Hs].
  destruct (ResidualConnection_forward_keeps_shape sample_keep 0%R self sample_x Ok Hs)
    as (norm & normed & y & out & _ & _ & _ & _ & Ho & Hso & _).
  - discriminate.
  - intros z Hz. exists z. split; [reflexivity | exact Hz].
  - exists self, out. split; [exact Hs|]. split; [exact Ho | exact Hso].
Defined.
